(** * Lazy-Awesome-Lists: prompt assembly and list persistence

    A shallow embedding of [src/config.py] (the file helpers and the
    module constants) and of [src/agent.py] (the class
    [AwesomeListAgent]), followed by the properties of the create / edit
    workflow.

    Python [str] values are Rocq strings; the file system is a finite map
    from path strings to the text stored there; the completion provider
    is an oracle carried by the world; exceptions are values of [exn]
    threaded through a state-and-error monad. *)

From Stdlib Require Import Ascii String.
From stdpp Require Import gmap strings list.

(** ** Text: the parts of [str] the agent relies on *)

Module Str.

Definition LF : ascii := "010"%char.
Definition CR : ascii := "013"%char.

(** [s.startswith(p)] *)
Fixpoint startswith (p s : string) : bool :=
  match p, s with
  | EmptyString, _ => true
  | String _ _, EmptyString => false
  | String a p', String b s' => if decide (a = b) then startswith p' s' else false
  end.

(** [old in s] *)
Fixpoint contains (old s : string) : bool :=
  match s with
  | EmptyString => startswith old s
  | String _ s' => startswith old s || contains old s'
  end.

(** [c in s] for a single character [c] *)
Fixpoint has_char (c : ascii) (s : string) : bool :=
  match s with
  | EmptyString => false
  | String b s' => if decide (c = b) then true else has_char c s'
  end.

(** The scan of [str.replace] for a non-empty pattern: left to right,
    a match at the current position emits [new] and jumps over the
    pattern ([skip] counts the characters of the match still to be
    passed), otherwise the character is copied. *)
Fixpoint replace_scan (skip : nat) (old new s : string) : string :=
  match s with
  | EmptyString => EmptyString
  | String c s' =>
      match skip with
      | S k => replace_scan k old new s'
      | O =>
          if startswith old s
          then new +:+ replace_scan (String.length old - 1) old new s'
          else String c (replace_scan 0 old new s')
      end
  end.

(** [str.replace] with an empty pattern puts [new] before every
    character and at the end. *)
Fixpoint replace_empty (new s : string) : string :=
  match s with
  | EmptyString => new
  | String c s' => new +:+ String c (replace_empty new s')
  end.

(** [s.replace(old, new)]: every non-overlapping occurrence, no count. *)
Definition replace (old new s : string) : string :=
  match old with
  | EmptyString => replace_empty new s
  | String _ _ => replace_scan 0 old new s
  end.

(** [s[n:]] *)
Fixpoint drop (n : nat) (s : string) : string :=
  match n, s with
  | O, _ => s
  | S _, EmptyString => EmptyString
  | S k, String _ s' => drop k s'
  end.

(** [s[:n]] *)
Fixpoint take (n : nat) (s : string) : string :=
  match n, s with
  | O, _ => EmptyString
  | S _, EmptyString => EmptyString
  | S k, String c s' => String c (take k s')
  end.

(** Text-mode reading with the default [newline=None]: universal
    newlines, every CR LF pair and every lone CR becomes LF. *)
Fixpoint universal_newlines (s : string) : string :=
  match s with
  | EmptyString => EmptyString
  | String c s' =>
      if decide (c = CR)
      then String LF
             match s' with
             | EmptyString => EmptyString
             | String d s'' =>
                 if decide (d = LF) then universal_newlines s''
                 else universal_newlines s'
             end
      else String c (universal_newlines s')
  end.

(** [s[-1]] when [s] is not empty *)
Fixpoint last_char (s : string) : option ascii :=
  match s with
  | EmptyString => None
  | String c EmptyString => Some c
  | String _ s' => last_char s'
  end.

(** [old] occurs in [s] with [pre] before it and [post] after it, and
    nowhere further to the left. *)
Definition leftmost (old pre post : string) : Prop :=
  forall pre' post',
    pre +:+ old +:+ post = pre' +:+ old +:+ post' ->
    String.length pre <= String.length pre'.

(** One occurrence of [old] in [t] has been exchanged for [new], the
    rest of [t] being kept: the reading of substitution under which
    exactly one occurrence is replaced. *)
Definition replaces_exactly_one (old new t r : string) : Prop :=
  exists pre post, t = pre +:+ old +:+ post /\ r = pre +:+ new +:+ post.

End Str.

(** ** Exceptions, provider, world *)

Inductive exn : Type :=
| ValueError (msg : string)
| FileNotFoundError (filename : string)
| OSError (filename : string)
| TypeError (msg : string)
| IndexError (msg : string)
| APIError (msg : string).

(** [OpenAI(api_key=..., base_url=...)]; [base_url = None] is the
    library's own endpoint. *)
Record Client : Type := { api_key : string; base_url : option string }.

Record Message : Type := { role : string; content : string }.

Record Request : Type := {
  rq_client : Client;
  rq_model : string;
  rq_messages : list Message;
  rq_temperature : string
}.

(** What [client.chat.completions.create] gives back: a completion, of
    which only [choices[i].message.content] is used ([None] is Python's
    [None]), or an exception raised by the library. *)
Inductive Response : Type :=
| ChatCompletion (choices : list (option string))
| Failure (msg : string).

(** What the storage does to one call of [write_file_content]. *)
Inductive Fault : Type :=
| NoFault
| FailMakedirs
| FailOpen
| FailWrite (written : nat).

Inductive Event : Type :=
| Called (r : Request)
| Opened (path : string)
| Wrote (path : string) (text : string).

(** The world the agent runs in: the files, the provider (its answer may
    depend on the requests it has already seen), the storage faults still
    to come (one per call of [write_file_content], none when the list is
    exhausted) and the log of what has been done so far. *)
Record World : Type := {
  fs : gmap string string;
  remote : list Request -> Request -> Response;
  faults : list Fault;
  log : list Event
}.

Definition set_fs (m : gmap string string) (w : World) : World :=
  {| fs := m; remote := remote w; faults := faults w; log := log w |}.

Definition set_faults (l : list Fault) (w : World) : World :=
  {| fs := fs w; remote := remote w; faults := l; log := log w |}.

Definition emit (e : Event) (w : World) : World :=
  {| fs := fs w; remote := remote w; faults := faults w; log := log w ++ [e] |}.

Fixpoint requests (l : list Event) : list Request :=
  match l with
  | [] => []
  | Called r :: l' => r :: requests l'
  | _ :: l' => requests l'
  end.

(** Number of provider calls recorded in a log. *)
Definition provider_calls (l : list Event) : nat := length (requests l).

(** Paths handed to [open(..., "w")], in order. *)
Fixpoint opened (l : list Event) : list string :=
  match l with
  | [] => []
  | Opened p :: l' => p :: opened l'
  | _ :: l' => opened l'
  end.

(** ** The monad: state, and exceptions that keep the state *)

Inductive Result (A : Type) : Type :=
| Return (a : A)
| Raise (e : exn).
Arguments Return {A} a.
Arguments Raise {A} e.

Definition M (A : Type) : Type := World -> Result A * World.

Definition ret {A} (a : A) : M A := fun w => (Return a, w).
Definition raise {A} (e : exn) : M A := fun w => (Raise e, w).
Definition bind {A B} (c : M A) (k : A -> M B) : M B :=
  fun w => match c w with
           | (Return a, w') => k a w'
           | (Raise e, w') => (Raise e, w')
           end.

Declare Scope py_scope.
Delimit Scope py_scope with py.
Notation "'let*' x ':=' c 'in' k" := (bind c (fun x => k))
  (at level 10, x name, c at level 100, k at level 200) : py_scope.
Notation "'run' c 'in' k" := (bind c (fun _ => k))
  (at level 10, c at level 100, k at level 200) : py_scope.
Local Open Scope py_scope.

(** Python truthiness of an [Optional[str]]. *)
Definition truthy (o : option string) : bool :=
  match o with
  | Some (String _ _) => true
  | _ => false
  end.

(** [a or b] on an [Optional[str]] and a [str]. *)
Definition por (a : option string) (b : string) : string :=
  match a with
  | Some (String c s) => String c s
  | _ => b
  end.

(** ** [src/config.py] *)

(** The module constants that come from the process environment and from
    the location of the source file, as they stand once [config.py] has
    been imported. [TEMPERATURE] is a float that is only passed on to the
    provider; it is carried as its decimal text. *)
Record Config : Type := {
  BASE_DIR : string;
  OPENAI_API_KEY : option string;
  OPENROUTER_API_KEY : option string;
  DEFAULT_MODEL : string;
  TEMPERATURE : string
}.

(** [p / child] of [pathlib]: an absolute [child] replaces [p]; a
    relative one is appended. [pathlib] also drops the empty and the
    ["."] components of [child], which is not followed here: the
    definition is what [pathlib] does when [child] has none of these,
    as the constants below and a file name without a slash have none. Paths are compared as the strings [pathlib] renders,
    and a file is known by the string it is opened with: two spellings
    of one file ([a//b], [a/./b]) are two keys of [fs]. *)
Definition path_div (p child : string) : string :=
  if Str.startswith "/" child then child else p +:+ "/" +:+ child.

Section Paths.
Variable cfg : Config.

Definition DEVELOPMENT_DIR : string := path_div (BASE_DIR cfg) "development".
Definition EXAMPLES_DIR : string := path_div DEVELOPMENT_DIR "examples".
Definition DEMO_LIST_DIR : string := path_div (BASE_DIR cfg) "demo-list".

Definition SYSTEM_PROMPTS_DIR : string :=
  path_div (path_div DEVELOPMENT_DIR "the-crew") "system-prompts".
Definition LIST_CREATOR_PROMPT_PATH : string :=
  path_div SYSTEM_PROMPTS_DIR "list-creator.md".
Definition LIST_EDITOR_PROMPT_PATH : string :=
  path_div SYSTEM_PROMPTS_DIR "list-editor.md".

Definition LIST_PATH : string := path_div DEMO_LIST_DIR "awesome-list.md".
Definition LIST_STARTER : string := path_div DEMO_LIST_DIR "starter.md".
Definition LIST_DRAFT : string := path_div DEMO_LIST_DIR "draft-edit.md".

Definition DEFAULT_EXAMPLE_PATH : string :=
  path_div EXAMPLES_DIR "awesome-android.md".
End Paths.

(** [os.path.dirname]: everything up to the last slash, with the
    trailing slashes removed unless nothing else is left. *)
Fixpoint dirname_head (p : string) : string :=
  match p with
  | EmptyString => EmptyString
  | String c p' =>
      if Str.has_char "/" p then String c (dirname_head p') else EmptyString
  end.

Fixpoint all_slashes (s : string) : bool :=
  match s with
  | EmptyString => true
  | String c s' => if decide (c = "/"%char) then all_slashes s' else false
  end.

Fixpoint rstrip_slashes (s : string) : string :=
  match s with
  | EmptyString => EmptyString
  | String c s' => if all_slashes s then EmptyString else String c (rstrip_slashes s')
  end.

Definition dirname (p : string) : string :=
  let head := dirname_head p in
  if all_slashes head then head else rstrip_slashes head.

(** [read_file_content]: [open(file_path, "r", encoding="utf-8")] raises
    [FileNotFoundError] on a missing file; [f.read()] returns the text
    with universal newlines applied. The files of a world are readable
    texts: a directory in the place of the file, a file the process may
    not read and bytes that are not UTF-8 are not among them. *)
Definition read_file_content (file_path : string) : M string :=
  fun w =>
    match fs w !! file_path with
    | Some text => (Return (Str.universal_newlines text), w)
    | None => (Raise (FileNotFoundError file_path), w)
    end.

(** The fault the next call of [write_file_content] meets. *)
Definition next_fault (w : World) : Fault * World :=
  match faults w with
  | [] => (NoFault, w)
  | f :: l => (f, set_faults l w)
  end.

(** [write_file_content], statement by statement:
    - [os.makedirs(os.path.dirname(file_path), exist_ok=True)] raises
      [FileNotFoundError] on the empty directory name, and whatever the
      storage raises;
    - [open(file_path, "w", encoding="utf-8")] truncates the file (or
      creates it empty);
    - [f.write(content)] raises [TypeError] when [content] is [None], and
      may fail with part of the text stored. With [os.linesep] being
      ["\n"] the text is stored as it is. *)
Definition write_file_content (file_path : string) (content : option string)
  : M unit :=
  fun w =>
    let d := dirname file_path in
    match d with
    | EmptyString => (Raise (FileNotFoundError EmptyString), w)
    | String _ _ =>
        let (f, w0) := next_fault w in
        match f with
        | FailMakedirs => (Raise (OSError d), w0)
        | FailOpen => (Raise (OSError file_path), w0)
        | _ =>
            let w1 := emit (Opened file_path)
                        (set_fs (<[file_path := EmptyString]> (fs w0)) w0) in
            match content with
            | None =>
                (Raise (TypeError "write() argument must be str, not None"), w1)
            | Some text =>
                let stored :=
                  match f with
                  | FailWrite n => Str.take n text
                  | _ => text
                  end in
                let w2 := emit (Wrote file_path stored)
                            (set_fs (<[file_path := stored]> (fs w1)) w1) in
                match f with
                | FailWrite _ => (Raise (OSError file_path), w2)
                | _ => (Return tt, w2)
                end
            end
        end
    end.

(** [Path.exists] *)
Definition path_exists (p : string) : M bool :=
  fun w => (Return (bool_decide (is_Some (fs w !! p))), w).

(** ** [src/agent.py] *)

Record AwesomeListAgent : Type := {
  model : string;
  client : Client;
  creator_prompt : string;
  editor_prompt : string
}.

Definition OPENROUTER_BASE_URL : string := "https://openrouter.ai/api/v1".
Definition EXAMPLE_TOKEN : string := "{{example}}".
Definition LISTPATH_TOKEN : string := "{{listpath}}".

(** [client.chat.completions.create(model=..., messages=..., temperature=...)]:
    one call of the client, recorded in the log whatever comes back. What
    the client sends to the provider for one call is [send] below. *)
Definition chat_completions_create (c : Client) (m : string)
    (messages : list Message) (temperature : string)
  : M (list (option string)) :=
  fun w =>
    let r := {| rq_client := c; rq_model := m; rq_messages := messages;
                rq_temperature := temperature |} in
    let w' := emit (Called r) w in
    match remote w (requests (log w)) r with
    | ChatCompletion choices => (Return choices, w')
    | Failure msg => (Raise (APIError msg), w')
    end.

(** [response.choices[0].message.content] *)
Definition first_choice_content (choices : list (option string))
  : M (option string) :=
  match choices with
  | [] => raise (IndexError "list index out of range")
  | c :: _ => ret c
  end.

(** ** The retries of the client

    [_get_client] builds both clients without [max_retries], so they keep
    the default of the library: a request that meets an error the
    library retries (unless the provider says otherwise: a connection
    error, a timeout, a status 408, 409, 429 or 500 and above) is sent
    again, up to [DEFAULT_MAX_RETRIES] times, before
    [client.chat.completions.create] raises; any other error is raised
    at once. *)

(** What one sending of a request meets: an answer, an error that the
    library retries, or one that it raises at once. *)
Inductive Attempt : Type :=
| Answered (choices : list (option string))
| Retryable (msg : string)
| Fatal (msg : string).

(** [openai.DEFAULT_MAX_RETRIES] *)
Definition DEFAULT_MAX_RETRIES : nat := 2.

(** One call of [client.chat.completions.create] on an endpoint that
    tells what the sending number [sent] (from 0) of a request meets:
    what the call gives back, and how many times the request has been
    sent by then. *)
Fixpoint send (endpoint : nat -> Request -> Attempt) (retries_left sent : nat)
    (r : Request) {struct retries_left} : Response * nat :=
  match endpoint sent r with
  | Answered choices => (ChatCompletion choices, S sent)
  | Fatal msg => (Failure msg, S sent)
  | Retryable msg =>
      match retries_left with
      | O => (Failure msg, S sent)
      | S k => send endpoint k (S sent) r
      end
  end.

(** The provider of a world, as the client built by [_get_client] makes
    it from an endpoint. *)
Definition through_client (endpoint : nat -> Request -> Attempt)
  : list Request -> Request -> Response :=
  fun _ r => fst (send endpoint DEFAULT_MAX_RETRIES 0 r).

(** How many times the provider was sent a request for the calls of a
    log. *)
Definition requests_sent (endpoint : nat -> Request -> Attempt)
    (l : list Event) : nat :=
  sum_list_with (fun r => snd (send endpoint DEFAULT_MAX_RETRIES 0 r))
    (requests l).

Section Agent.
Variable cfg : Config.

(** [AwesomeListAgent._get_client]: OpenRouter if its key is set, else
    OpenAI if its key is set, else [ValueError]. *)
Definition _get_client : M Client :=
  if truthy (OPENROUTER_API_KEY cfg) then
    ret {| api_key := default "" (OPENROUTER_API_KEY cfg);
           base_url := Some OPENROUTER_BASE_URL |}
  else if truthy (OPENAI_API_KEY cfg) then
    ret {| api_key := default "" (OPENAI_API_KEY cfg); base_url := None |}
  else
    raise (ValueError "No API key provided for OpenAI or OpenRouter").

(** [AwesomeListAgent.__init__]: the model, then the client, then the
    two system prompts read from their files. *)
Definition __init__ (model_arg : option string) : M AwesomeListAgent :=
  let m := por model_arg (DEFAULT_MODEL cfg) in
  let* c := _get_client in
  let* creator := read_file_content (LIST_CREATOR_PROMPT_PATH cfg) in
  let* editor := read_file_content (LIST_EDITOR_PROMPT_PATH cfg) in
  ret {| model := m; client := c;
         creator_prompt := creator; editor_prompt := editor |}.

(** The [messages] argument of both methods. *)
Definition system_and_user (prompt user_input : string) : list Message :=
  [ {| role := "system"; content := prompt |};
    {| role := "user"; content := user_input |} ].

(** "Determine the example path", the first statement of [create_list]:
    a name that is given and not empty selects a file of the examples
    directory, which has to exist; otherwise the default example. *)
Definition example_path_of (example_name : option string) : M string :=
  match example_name with
  | Some (String c s) =>
      let example_path := path_div (EXAMPLES_DIR cfg) (String c s +:+ ".md") in
      let* present := path_exists example_path in
      if present then ret example_path
      else raise (ValueError ("Example '" +:+ String c s +:+ "' not found"))
  | _ => ret (DEFAULT_EXAMPLE_PATH cfg)
  end.

(** [AwesomeListAgent.create_list] *)
Definition create_list (self : AwesomeListAgent) (user_input : string)
    (example_name : option string) : M (option string) :=
  let* example_path := example_path_of example_name in
  let* example_content := read_file_content example_path in
  let prompt := Str.replace EXAMPLE_TOKEN example_content (creator_prompt self) in
  let* choices :=
    chat_completions_create (client self) (model self)
      (system_and_user prompt user_input) (TEMPERATURE cfg) in
  let* content := first_choice_content choices in
  run write_file_content (LIST_STARTER cfg) content in
  run write_file_content (LIST_PATH cfg) content in
  ret content.

(** [AwesomeListAgent.edit_list] *)
Definition edit_list (self : AwesomeListAgent) (user_input : string)
    (list_path draft_path : option string) : M (option string) :=
  let list_path := por list_path (LIST_PATH cfg) in
  let draft_path := por draft_path (LIST_DRAFT cfg) in
  let* list_content := read_file_content list_path in
  let prompt := Str.replace LISTPATH_TOKEN list_content (editor_prompt self) in
  let* choices :=
    chat_completions_create (client self) (model self)
      (system_and_user prompt user_input) (TEMPERATURE cfg) in
  let* content := first_choice_content choices in
  run write_file_content draft_path content in
  run write_file_content (LIST_PATH cfg) content in
  ret content.

(** The two operations as the command line performs them: build the
    agent, then call the method with its default paths. *)
Definition create (model_arg : option string) (user_input : string)
    (example_name : option string) : M (option string) :=
  let* agent := __init__ model_arg in
  create_list agent user_input example_name.

Definition edit (model_arg : option string) (edits : string)
  : M (option string) :=
  let* agent := __init__ model_arg in
  edit_list agent edits None None.
End Agent.

(** ** Sessions

    Operations follow one another on the same files: within one run of
    the interactive loop of [main.py], which builds one agent and performs
    what the user picks, and from one run of the program to the next (an
    exception ends the run, the files stay). A session performs a list of
    operations in order, whatever their outcomes. *)

Inductive Op : Type :=
| OpCreate (user_input : string) (example_name : option string)
| OpEdit (user_input : string) (list_path draft_path : option string).

Definition perform (cfg : Config) (agent : AwesomeListAgent) (op : Op)
  : M (option string) :=
  match op with
  | OpCreate user_input example_name =>
      create_list cfg agent user_input example_name
  | OpEdit user_input list_path draft_path =>
      edit_list cfg agent user_input list_path draft_path
  end.

Fixpoint session (cfg : Config) (agent : AwesomeListAgent) (ops : list Op)
    (w : World) : World :=
  match ops with
  | [] => w
  | op :: rest => session cfg agent rest (snd (perform cfg agent op w))
  end.

(** An operation that cannot write the starter file: an edit that
    saves its draft to the default place ([draft_path] is [None] or
    empty). *)
Definition spares_starter (op : Op) : Prop :=
  match op with
  | OpCreate _ _ => False
  | OpEdit _ _ draft_path => truthy draft_path = false
  end.

(** An operation that cannot write the draft-edit file: a create. *)
Definition spares_draft (op : Op) : Prop :=
  match op with
  | OpCreate _ _ => True
  | OpEdit _ _ _ => False
  end.

(** ** Names for parts of the two methods *)

(** The request [create_list] sends once it has read the example. *)
Definition creation_request (cfg : Config) (self : AwesomeListAgent)
    (user_input example_content : string) : Request :=
  {| rq_client := client self; rq_model := model self;
     rq_messages :=
       system_and_user
         (Str.replace EXAMPLE_TOKEN example_content (creator_prompt self))
         user_input;
     rq_temperature := TEMPERATURE cfg |}.

(** The request [edit_list] sends once it has read the list. *)
Definition edit_request (cfg : Config) (self : AwesomeListAgent)
    (user_input list_content : string) : Request :=
  {| rq_client := client self; rq_model := model self;
     rq_messages :=
       system_and_user
         (Str.replace LISTPATH_TOKEN list_content (editor_prompt self))
         user_input;
     rq_temperature := TEMPERATURE cfg |}.

(** The last three statements of both methods: save to the snapshot
    file, save to the main list file, return. *)
Definition save_both (cfg : Config) (snapshot : string)
    (content : option string) : M (option string) :=
  run write_file_content snapshot content in
  run write_file_content (LIST_PATH cfg) content in
  ret content.

(** What a method does from the answer of the provider on. *)
Definition after_answer (cfg : Config) (snapshot : string) (req : Request)
    (w : World) : Result (option string) * World :=
  match remote w (requests (log w)) req with
  | ChatCompletion (c :: _) => save_both cfg snapshot c (emit (Called req) w)
  | ChatCompletion [] =>
      (Raise (IndexError "list index out of range"), emit (Called req) w)
  | Failure msg => (Raise (APIError msg), emit (Called req) w)
  end.

(** ** Properties of an outcome *)

(** The operation returned the text [T] that the provider gave as the
    first choice of its answer to the one request [req] of the operation,
    and the slot [snapshot] and the current list both hold it. *)
Definition persisted (cfg : Config) (snapshot : string) (w : World)
    (r : option string) (w' : World) : Prop :=
  exists T req rest,
    r = Some T /\
    remote w (requests (log w)) req = ChatCompletion (Some T :: rest) /\
    requests (log w') = (requests (log w) ++ [req])%list /\
    fs w' !! snapshot = Some T /\
    fs w' !! LIST_PATH cfg = Some T.


(** The error of [_get_client]. *)
Definition NO_API_KEY : exn :=
  ValueError "No API key provided for OpenAI or OpenRouter".

(** The system prompt of a request: the content of its first message. *)
Definition prompt_of (r : Request) : string :=
  match rq_messages r with
  | m :: _ => content m
  | [] => ""
  end.

(** What the substitution of [text] for [token] in [template] achieves:
    a template without the token is the prompt as it is; the result
    carries the text whenever the template has the token; and when the
    template has nothing that could start a token before its one
    placeholder ([first] is the first character of the token) and
    nothing that could end one after it ([last] is its last character),
    the result is the template with the text in the place of the token,
    free of the token if the text is. *)
Definition substituted (token : string) (first last : ascii)
    (template text prompt : string) : Prop :=
  (Str.contains token template = false -> prompt = template) /\
  (Str.contains token template = true -> Str.contains text prompt = true) /\
  (forall pre post,
      template = pre +:+ token +:+ post ->
      Str.has_char first pre = false -> Str.has_char last post = false ->
      prompt = pre +:+ text +:+ post /\
      (Str.contains token text = false -> Str.contains token prompt = false)).

(** ** Sample worlds *)

Definition sample_cfg : Config :=
  {| BASE_DIR := "/repo";
     OPENAI_API_KEY := Some "sk-sample";
     OPENROUTER_API_KEY := None;
     DEFAULT_MODEL := "gpt-4";
     TEMPERATURE := "0.7" |}.


Definition no_key_cfg : Config :=
  {| BASE_DIR := "/repo";
     OPENAI_API_KEY := None;
     OPENROUTER_API_KEY := Some "";
     DEFAULT_MODEL := "gpt-4";
     TEMPERATURE := "0.7" |}.

Definition sample_agent : AwesomeListAgent :=
  {| model := "gpt-4";
     client := {| api_key := "sk-sample"; base_url := None |};
     creator_prompt := "Write a list like this one: {{example}} Thanks.";
     editor_prompt := "Edit this list: {{listpath}} Thanks." |}.

Definition sample_files (example current : string) : gmap string string :=
  <[LIST_CREATOR_PROMPT_PATH sample_cfg := creator_prompt sample_agent]>
  (<[LIST_EDITOR_PROMPT_PATH sample_cfg := editor_prompt sample_agent]>
  (<[DEFAULT_EXAMPLE_PATH sample_cfg := example]>
  (<[LIST_STARTER sample_cfg := "# Old starter"]>
  (<[LIST_PATH sample_cfg := current]> ∅)))).

Definition sample_world (files : gmap string string) (answer : Response)
    (fl : list Fault) : World :=
  {| fs := files; remote := fun _ _ => answer; faults := fl; log := [] |}.

(** A provider up and answering, no storage fault. *)
Definition calm_world : World :=
  sample_world (sample_files "# Awesome Android" "# My List")
    (ChatCompletion [Some "# Awesome Things"]) [].

(** The same with the provider failing. *)
Definition down_world : World :=
  sample_world (sample_files "# Awesome Android" "# My List")
    (Failure "Connection error.") [].

(** No list has been created yet. *)
Definition fresh_world : World :=
  sample_world
    (<[DEFAULT_EXAMPLE_PATH sample_cfg := "# Awesome Android"]> ∅)
    (ChatCompletion [Some "# Awesome Things"]) [].



(** The provider answers with a message whose content is [None]. *)
Definition silent_world : World :=
  sample_world (sample_files "# Awesome Android" "# My List")
    (ChatCompletion [None]) [].

(** The example and the current list talk about the placeholders. *)
Definition quoting_world : World :=
  sample_world
    (sample_files "Put {{example}} in the prompt" "Use {{listpath}} here")
    (ChatCompletion [Some "# Awesome Things"]) [].

(** An endpoint that answers every sending with a status 503. *)
Definition overloaded (sent : nat) (r : Request) : Attempt :=
  Retryable "Error code: 503".

(** The provider is reached through the client and is overloaded. *)
Definition overloaded_world : World :=
  {| fs := sample_files "# Awesome Android" "# My List";
     remote := through_client overloaded;
     faults := [];
     log := [] |}.

(** A text with a carriage return in it. *)
Definition cr_text : string := String "a" (String Str.CR (String "b" "")).
Definition lf_text : string := String "a" (String Str.LF (String "b" "")).


(** * The rest of the program *)

(** ** Text: what the listing, the command line and the downloader use *)

Module PyStr.

(** [s.endswith(suffix)] *)
Fixpoint endswith (suffix s : string) : bool :=
  match s with
  | EmptyString => bool_decide (suffix = s)
  | String _ s' => bool_decide (suffix = s) || endswith suffix s'
  end.

(** The scan of [str.split] for a non-empty separator, left to right:
    a match at the current position closes the piece and jumps over the
    separator ([skip] counts its characters still to be passed). *)
Fixpoint split_scan (skip : nat) (sep s : string) : list string :=
  match s with
  | EmptyString => [EmptyString]
  | String c s' =>
      match skip with
      | S k => split_scan k sep s'
      | O =>
          if Str.startswith sep s
          then EmptyString :: split_scan (String.length sep - 1) sep s'
          else
            match split_scan 0 sep s' with
            | piece :: pieces => String c piece :: pieces
            | [] => [String c EmptyString]
            end
      end
  end.

(** [s.split(sep)] for a literal, non-empty [sep]. *)
Definition split (sep s : string) : list string := split_scan 0 sep s.

(** [s[:-n]] for [n] greater than zero. *)
Definition drop_last (n : nat) (s : string) : string :=
  Str.take (String.length s - n) s.

(** [s[:-4] if s.endswith(".git") else s] *)
Definition strip_git (s : string) : string :=
  if endswith ".git" s then drop_last 4 s else s.

End PyStr.

(** ** [AwesomeListAgent.get_available_examples] *)

(** The entry of the directory [d] that the file at [path] lies in or
    is: the first component of [path] below [d]. *)
Definition first_component (s : string) : string :=
  match PyStr.split "/" s with
  | c :: _ => c
  | [] => s
  end.

Definition entry_below (d path : string) : option string :=
  if Str.startswith (d +:+ "/") path
  then Some (first_component (Str.drop (String.length d + 1) path))
  else None.

(** [os.listdir(d)]. The world holds files only: the entries of [d] are
    read off the paths of the files below it, each name once, and a
    directory with no file below it is reported missing. [os.listdir]
    promises no order; the list comes in the order of the map. *)
Definition os_listdir (d : string) : M (list string) :=
  fun w =>
    match remove_dups (omap (entry_below d) (map fst (map_to_list (fs w)))) with
    | [] => (Raise (FileNotFoundError d), w)
    | names => (Return names, w)
    end.

(** The loop of [get_available_examples]. *)
Fixpoint example_names (files : list string) : list string :=
  match files with
  | [] => []
  | file :: rest =>
      if PyStr.endswith ".md" file
      then Str.replace ".md" "" file :: example_names rest
      else example_names rest
  end.

Definition get_available_examples (cfg : Config) : M (list string) :=
  let* files := os_listdir (EXAMPLES_DIR cfg) in
  ret (example_names files).

(** ** [src/cli.py]: the [create] and [edit] commands *)

Definition COMMUNITY_SENTENCE : string :=
  "Include guidelines for community participation.".

(** "Construct user input", as [create] of [cli.py] and
    [create_awesome_list] of [main.py] do it. *)
Definition construct_user_input (name description style : string)
    (community : bool) : string :=
  let user_input :=
    "Create an awesome list named '" +:+ name +:+ "' about "
      +:+ description +:+ ". " +:+ "Use a " +:+ style +:+ " style. " in
  if community then user_input +:+ COMMUNITY_SENTENCE else user_input.

(** [result[:500] + "..." if len(result) > 500 else result], the text of
    the result panel. *)
Definition preview (result : string) : string :=
  if 500 <? String.length result
  then Str.take 500 result +:+ "..."
  else result.

(** How a command ends: it completes, having shown a text in the result
    panel; it leaves with [typer.Exit(code)], after the key panel
    ([cause] is [None]) or after reporting an exception it caught; or an
    exception escapes it. *)
Inductive Outcome : Type :=
| Shown (text : string)
| Exit (code : nat) (cause : option exn)
| Uncaught (e : exn).

(** "Set API keys if provided": the options go to [os.environ]. *)
Definition set_keys (api_key openrouter_key : option string)
    (environ : gmap string string) : gmap string string :=
  let environ :=
    if truthy api_key
    then <["OPENAI_API_KEY" := default "" api_key]> environ
    else environ in
  if truthy openrouter_key
  then <["OPENROUTER_API_KEY" := default "" openrouter_key]> environ
  else environ.

(** "Check if API keys are set", on [os.environ]. *)
Definition keys_set (environ : gmap string string) : bool :=
  truthy (environ !! "OPENAI_API_KEY")
  || truthy (environ !! "OPENROUTER_API_KEY").


Section Cli.
Variable cfg : Config.

(** The part of a command after the options have been handled: the
    check of the keys, the agent, and the operation inside [try]. *)
Definition command (model : option string)
    (operation : AwesomeListAgent -> M (option string))
    (environ : gmap string string) : M Outcome :=
  fun w =>
    if negb (keys_set environ) then (Return (Exit 1 None), w)
    else
      match __init__ cfg model w with
      | (Raise e, w1) => (Return (Uncaught e), w1)
      | (Return agent, w1) =>
          match operation agent w1 with
          | (Return (Some result), w2) => (Return (Shown (preview result)), w2)
          | (Return None, w2) =>
              (Return
                 (Exit 1 (Some (TypeError
                                  "object of type 'NoneType' has no len()"))),
               w2)
          | (Raise e, w2) => (Return (Exit 1 (Some e)), w2)
          end
      end.

(** [create] of [cli.py] *)
Definition cli_create (name description : string)
    (example model api_key openrouter_key : option string)
    (style : string) (community : bool)
    (environ : gmap string string) : M Outcome :=
  command model
    (fun agent =>
       create_list cfg agent
         (construct_user_input name description style community) example)
    (set_keys api_key openrouter_key environ).

End Cli.

(** ** [example-lists/populate-examples.py] *)

Definition SSH_PREFIX : string := "git@github.com:".

(** What [requests.get] gives back: a response, of which [status_code]
    and [text] are used, or an exception of the library (an [OSError]). *)
Inductive HttpAnswer : Type :=
| HttpResponse (status_code : nat) (text : string)
| HttpError (msg : string).

(** The downloader runs with the addresses fetched so far, in order. *)
Definition Fetch (A : Type) : Type := list string -> Result A * list string.

Definition fetch_ret {A} (a : A) : Fetch A := fun l => (Return a, l).
Definition fetch_raise {A} (e : exn) : Fetch A := fun l => (Raise e, l).
Definition fetch_bind {A B} (c : Fetch A) (k : A -> Fetch B) : Fetch B :=
  fun l => match c l with
           | (Return a, l') => k a l'
           | (Raise e, l') => (Raise e, l')
           end.

(** How a URL was processed: [(True, "SUCCESS: README saved to ...")]
    with the file written, or [(False, "ERROR: ...")] with the exception
    caught. *)
Inductive Processed : Type :=
| Saved (output_file : string)
| Failed (e : exn).

(** [os.path.join(a, b)] *)
Definition os_path_join (a b : string) : string :=
  if Str.startswith "/" b then b
  else if bool_decide (a = "") || PyStr.endswith "/" a then a +:+ b
  else a +:+ "/" +:+ b.

Definition readme_url (owner repo branch file : string) : string :=
  "https://raw.githubusercontent.com/" +:+ owner +:+ "/" +:+ repo
    +:+ "/" +:+ branch +:+ "/" +:+ file.

(** The addresses [get_readme_content] tries, in its order. *)
Definition readme_urls (owner repo : string) : list string :=
  [ readme_url owner repo "main" "README.md";
    readme_url owner repo "master" "README.md";
    readme_url owner repo "main" "readme.md";
    readme_url owner repo "master" "readme.md" ].

Section Downloader.
(** [urlparse(url)] of [urllib.parse], of which [netloc] and [path] are
    used. *)
Variable urlparse : string -> string * string.
(** The web: the answer to a request may depend on the requests made
    before. *)
Variable server : list string -> string -> HttpAnswer.

Definition parse_github_url (url : string) : Result (string * string) :=
  if Str.startswith SSH_PREFIX url then
    match PyStr.split SSH_PREFIX url with
    | _ :: path :: _ =>
        match PyStr.split "/" (PyStr.strip_git path) with
        | owner :: repo :: _ => Return (owner, repo)
        | _ => Raise (IndexError "list index out of range")
        end
    | _ => Raise (IndexError "list index out of range")
    end
  else
    let (netloc, path) := urlparse url in
    if negb (bool_decide (netloc = "github.com"))
       && negb (PyStr.endswith ".github.com" netloc)
    then Raise (ValueError ("Not a GitHub URL: " +:+ url))
    else
      match filter (fun p => p <> "") (PyStr.split "/" path) with
      | owner :: repo :: _ => Return (owner, PyStr.strip_git repo)
      | _ => Raise (ValueError ("Invalid GitHub repository URL: " +:+ url))
      end.

(** [requests.get(url)] *)
Definition requests_get (url : string) : Fetch (nat * string) :=
  fun l =>
    match server l url with
    | HttpResponse status_code text => (Return (status_code, text), l ++ [url])
    | HttpError msg => (Raise (OSError msg), l ++ [url])
    end.

(** One of the three [if response.status_code != 200:] retries. *)
Definition retry_unless_200 (response : nat * string) (url : string)
  : Fetch (nat * string) :=
  if bool_decide (fst response <> 200) then requests_get url
  else fetch_ret response.

Definition get_readme_content (owner repo : string) : Fetch string :=
  fetch_bind (requests_get (readme_url owner repo "main" "README.md"))
    (fun response =>
  fetch_bind (retry_unless_200 response
                (readme_url owner repo "master" "README.md"))
    (fun response =>
  fetch_bind (retry_unless_200 response
                (readme_url owner repo "main" "readme.md"))
    (fun response =>
  fetch_bind (retry_unless_200 response
                (readme_url owner repo "master" "readme.md"))
    (fun response =>
  if bool_decide (fst response <> 200)
  then fetch_raise
         (ValueError ("Could not find README for " +:+ owner +:+ "/" +:+ repo))
  else fetch_ret (snd response))))).

(** [save_readme]: [os.makedirs(output_dir, exist_ok=True)], then the
    file [output_dir/repo_name.md] is opened for writing, which truncates
    it, and the content is written. *)
Definition save_readme (content repo_name output_dir : string) : M string :=
  fun w =>
    match output_dir with
    | EmptyString => (Raise (FileNotFoundError EmptyString), w)
    | String _ _ =>
        let (f, w0) := next_fault w in
        let filepath := os_path_join output_dir (repo_name +:+ ".md") in
        match f with
        | FailMakedirs => (Raise (OSError output_dir), w0)
        | FailOpen => (Raise (OSError filepath), w0)
        | FailWrite n =>
            (Raise (OSError filepath),
             emit (Wrote filepath (Str.take n content))
               (set_fs (<[filepath := Str.take n content]> (fs w0))
                  (emit (Opened filepath) w0)))
        | NoFault =>
            (Return filepath,
             emit (Wrote filepath content)
               (set_fs (<[filepath := content]> (fs w0))
                  (emit (Opened filepath) w0)))
        end
    end.

(** [process_github_url]: parse, fetch, save; any exception is caught. *)
Definition process_github_url (url output_dir : string)
    (l : list string) (w : World) : Processed * (list string * World) :=
  match parse_github_url url with
  | Raise e => (Failed e, (l, w))
  | Return (owner, repo) =>
      match get_readme_content owner repo l with
      | (Raise e, l') => (Failed e, (l', w))
      | (Return readme_content, l') =>
          match save_readme readme_content repo output_dir w with
          | (Raise e, w') => (Failed e, (l', w'))
          | (Return output_file, w') => (Saved output_file, (l', w'))
          end
      end
  end.
End Downloader.

(** ** More sample values *)

(** What [urlparse] gives for the address of a repository page. *)
Definition sample_urlparse (url : string) : string * string :=
  ("github.com", "/sindresorhus/awesome/blob/main/readme.md").

(** A web where the README of one repository is found at the third
    address tried. *)
Definition sample_server (l : list string) (url : string) : HttpAnswer :=
  if bool_decide
       (url = readme_url "sindresorhus" "awesome" "main" "readme.md")
  then HttpResponse 200 "# Awesome"
  else HttpResponse 404 "404: Not Found".

(** The examples directory holds one file, a backup of a Markdown file. *)
Definition mangling_world : World :=
  sample_world
    (<[path_div (EXAMPLES_DIR sample_cfg) "notes.md.md" := "# Notes"]> ∅)
    (ChatCompletion [Some "# Awesome Things"]) [].

(** A list kept outside the demo directory. *)
Definition elsewhere_world : World :=
  sample_world
    (<["/repo/notes/list.md" := "# Notes"]>
       (sample_files "# Awesome Android" "# My List"))
    (ChatCompletion [Some "# Awesome Things"]) [].

(** The address of a repository page, and what processing it into the
    examples directory of the sample configuration gives. *)
Definition sample_url : string :=
  "https://github.com/sindresorhus/awesome/blob/main/readme.md".

Definition sample_processed : Processed * (list string * World) :=
  process_github_url sample_urlparse sample_server sample_url
    (EXAMPLES_DIR sample_cfg) [] calm_world.
(** * Facts *)

(** ** Text *)

Module StrFacts.
Import Str.

Lemma app_cons c s t : String c s +:+ t = String c (s +:+ t).
Proof. reflexivity. Qed.

Lemma app_nil_l s : "" +:+ s = s.
Proof. reflexivity. Qed.

Lemma app_nil_r s : s +:+ "" = s.
Proof. induction s as [|c s IH]; [done|]. by rewrite app_cons, IH. Qed.

Lemma app_assoc s t u : (s +:+ t) +:+ u = s +:+ t +:+ u.
Proof. induction s as [|c s IH]; [done|]. by rewrite !app_cons, IH. Qed.

Lemma length_app s t :
  String.length (s +:+ t) = String.length s + String.length t.
Proof. induction s as [|c s IH]; [done|]. rewrite app_cons. simpl. by rewrite IH. Qed.

Lemma startswith_app p r : startswith p (p +:+ r) = true.
Proof.
  induction p as [|a p IH]; [done|].
  rewrite app_cons. simpl. by rewrite decide_True.
Qed.

Lemma startswith_inv p s : startswith p s = true -> exists r, s = p +:+ r.
Proof.
  revert s. induction p as [|a p IH]; intros s H.
  - by exists s.
  - destruct s as [|b s]; [done|]. simpl in H.
    destruct (decide (a = b)) as [->|]; [|done].
    destruct (IH _ H) as [r ->]. by exists r.
Qed.

Lemma startswith_contains old s : startswith old s = true -> contains old s = true.
Proof. destruct s; simpl; [done|]. by intros ->. Qed.

Lemma contains_cons old c s :
  contains old (String c s) = startswith old (String c s) || contains old s.
Proof. reflexivity. Qed.

Lemma contains_intro old pre post : contains old (pre +:+ old +:+ post) = true.
Proof.
  induction pre as [|c pre IH].
  - rewrite app_nil_l. apply startswith_contains, startswith_app.
  - rewrite app_cons, contains_cons, IH. apply orb_true_r.
Qed.

Lemma contains_elim old s :
  contains old s = true -> exists pre post, s = pre +:+ old +:+ post.
Proof.
  induction s as [|c s IH].
  - simpl. intros [r ->]%startswith_inv. by exists "", r.
  - rewrite contains_cons. intros [H|H]%orb_true_iff.
    + apply startswith_inv in H as [r ->]. by exists "", r.
    + destruct (IH H) as (pre & post & ->). by exists (String c pre), post.
Qed.

Lemma has_char_app c s t : has_char c (s +:+ t) = has_char c s || has_char c t.
Proof.
  induction s as [|b s IH]; [done|].
  rewrite app_cons. simpl. by destruct (decide (c = b)).
Qed.

Lemma drop_app p r : drop (String.length p) (p +:+ r) = r.
Proof. induction p as [|a p IH]; [by destruct r|]. by rewrite app_cons. Qed.

Lemma replace_scan_skip k old new s :
  replace_scan k old new s = replace_scan 0 old new (drop k s).
Proof.
  revert k. induction s as [|c s IH]; intros [|k]; try done.
  simpl. apply IH.
Qed.

Lemma replace_scan_match a o new r :
  replace_scan 0 (String a o) new (String a o +:+ r)
  = new +:+ replace_scan 0 (String a o) new r.
Proof.
  rewrite app_cons.
  change (replace_scan 0 (String a o) new (String a (o +:+ r)))
    with (if startswith (String a o) (String a (o +:+ r))
          then new +:+ replace_scan (String.length (String a o) - 1)
                         (String a o) new (o +:+ r)
          else String a (replace_scan 0 (String a o) new (o +:+ r))).
  rewrite <- app_cons, startswith_app.
  rewrite replace_scan_skip.
  replace (String.length (String a o) - 1) with (String.length o)
    by (simpl; lia).
  by rewrite drop_app.
Qed.

Lemma replace_scan_copy old new c s :
  startswith old (String c s) = false ->
  replace_scan 0 old new (String c s) = String c (replace_scan 0 old new s).
Proof. intros H. simpl. simpl in H. by rewrite H. Qed.

Lemma replace_scan_absent old new s :
  contains old s = false -> replace_scan 0 old new s = s.
Proof.
  induction s as [|c s IH]; [done|].
  rewrite contains_cons. intros [H1 H2]%orb_false_iff.
  rewrite replace_scan_copy by done. by rewrite IH.
Qed.

Lemma replace_absent old new s :
  contains old s = false -> replace old new s = s.
Proof.
  destruct old as [|a o]; simpl.
  - by destruct s.
  - apply replace_scan_absent.
Qed.

(** *** The leftmost occurrence *)

Lemma leftmost_head a o c pre post :
  leftmost (String a o) (String c pre) post ->
  startswith (String a o) (String c pre +:+ String a o +:+ post) = false.
Proof.
  intros L. destruct (startswith _ _) eqn:E; [|done].
  apply startswith_inv in E as [r E].
  specialize (L "" r). rewrite app_nil_l in L. specialize (L E).
  simpl in L. lia.
Qed.

Lemma leftmost_tail old c pre post :
  leftmost old (String c pre) post -> leftmost old pre post.
Proof.
  intros L pre' post' E.
  specialize (L (String c pre') post'). rewrite !app_cons in L.
  rewrite E in L. specialize (L eq_refl). simpl in L. lia.
Qed.

Lemma replace_scan_leftmost a o new pre post :
  leftmost (String a o) pre post ->
  replace_scan 0 (String a o) new (pre +:+ String a o +:+ post)
  = pre +:+ new +:+ replace_scan 0 (String a o) new post.
Proof.
  induction pre as [|c pre IH]; intros L.
  - rewrite !app_nil_l. apply replace_scan_match.
  - pose proof (leftmost_head _ _ _ _ _ L) as H.
    rewrite !(app_cons c pre) in *. rewrite replace_scan_copy by done.
    f_equal. apply IH. by eapply leftmost_tail.
Qed.

(** Every text that contains [old] splits at its leftmost occurrence. *)
Lemma leftmost_exists old s :
  contains old s = true ->
  exists pre post, s = pre +:+ old +:+ post /\ leftmost old pre post.
Proof.
  induction s as [|c s IH].
  - simpl. intros H. pose proof H as [r E]%startswith_inv.
    exists "", r. split; [done|]. intros ? ? _. simpl. lia.
  - rewrite contains_cons. destruct (startswith old (String c s)) eqn:S1.
    + intros _. apply startswith_inv in S1 as [r E].
      exists "", r. split; [done|]. intros ? ? _. simpl. lia.
    + simpl. intros H. destruct (IH H) as (pre & post & -> & L).
      exists (String c pre), post. split; [done|].
      intros pre' post' E. destruct pre' as [|c' pre'].
      * rewrite app_nil_l in E. rewrite app_cons in E.
        rewrite E, startswith_app in S1. done.
      * rewrite !app_cons in E. injection E as _ E.
        specialize (L _ _ E). simpl. lia.
Qed.

(** *** What the result of [replace] contains *)

Lemma contains_app_r old pre s :
  contains old s = true -> contains old (pre +:+ s) = true.
Proof.
  intros H. induction pre as [|c pre IH]; [done|].
  rewrite app_cons, contains_cons, IH. apply orb_true_r.
Qed.

Lemma contains_app_l old s post :
  contains old s = true -> contains old (s +:+ post) = true.
Proof.
  intros (pre & q & ->)%contains_elim.
  rewrite !app_assoc. apply contains_intro.
Qed.

Lemma replace_scan_contains_new a o new s :
  contains (String a o) s = true ->
  contains new (replace_scan 0 (String a o) new s) = true.
Proof.
  intros (pre & post & -> & L)%leftmost_exists.
  rewrite replace_scan_leftmost by done.
  apply contains_intro.
Qed.

(** *** Texts free of a character *)

Lemma has_char_contains z old s :
  has_char z old = true -> has_char z s = false -> contains old s = false.
Proof.
  intros Hz Hs. destruct (contains old s) eqn:E; [|done].
  apply contains_elim in E as (pre & post & ->).
  rewrite !has_char_app, Hz in Hs.
  by rewrite orb_true_l, orb_true_r in Hs.
Qed.

Lemma startswith_other a o c s : a <> c -> startswith (String a o) (String c s) = false.
Proof. intros. simpl. by rewrite decide_False. Qed.

Lemma replace_scan_skip_pre a o new pre s :
  has_char a pre = false ->
  replace_scan 0 (String a o) new (pre +:+ s)
  = pre +:+ replace_scan 0 (String a o) new s.
Proof.
  induction pre as [|c pre IH]; [done|].
  intros H. cbn [has_char] in H. destruct (decide (a = c)); [done|].
  rewrite !(app_cons c pre).
  rewrite replace_scan_copy by by apply startswith_other.
  by rewrite IH.
Qed.

Lemma contains_skip_pre a o pre s :
  has_char a pre = false ->
  contains (String a o) (pre +:+ s) = contains (String a o) s.
Proof.
  induction pre as [|c pre IH]; [done|].
  intros H. cbn [has_char] in H. destruct (decide (a = c)); [done|].
  rewrite (app_cons c pre), contains_cons, startswith_other by done.
  by rewrite IH.
Qed.

Lemma last_char_has_char s z : last_char s = Some z -> has_char z s = true.
Proof.
  induction s as [|c s IH]; [done|].
  simpl. destruct s as [|d s].
  - intros [= ->]. by rewrite decide_True.
  - intros H. rewrite IH by done. by destruct (decide (z = c)).
Qed.

(** A pattern that starts in [x] and runs past its end puts its last
    character into what follows. *)
Lemma startswith_straddle p x y z :
  startswith p (x +:+ y) = true -> startswith p x = false ->
  last_char p = Some z -> has_char z y = true.
Proof.
  revert x. induction p as [|a p IH]; intros x H1 H2 Hz; [done|].
  destruct x as [|b x].
  - rewrite app_nil_l in H1. apply startswith_inv in H1 as [r ->].
    rewrite has_char_app, (last_char_has_char _ _ Hz). done.
  - rewrite app_cons in H1. simpl in H1, H2.
    destruct (decide (a = b)); [|done].
    destruct p as [|a' p]; [done|].
    eapply IH; [exact H1|exact H2|exact Hz].
Qed.

Lemma contains_straddle old new post z :
  last_char old = Some z -> has_char z post = false ->
  contains old new = false -> contains old (new +:+ post) = false.
Proof.
  intros Hz Hp. induction new as [|c n IH].
  - intros _. rewrite app_nil_l.
    eapply has_char_contains; [by apply last_char_has_char|done].
  - rewrite contains_cons. intros [H1 H2]%orb_false_iff.
    rewrite app_cons, contains_cons, IH by done.
    rewrite orb_false_r. rewrite <- app_cons.
    destruct (startswith old (String c n +:+ post)) eqn:E; [|done].
    pose proof (startswith_straddle _ _ _ _ E H1 Hz). congruence.
Qed.

(** *** Universal newlines *)

Lemma universal_newlines_id s :
  has_char CR s = false -> universal_newlines s = s.
Proof.
  induction s as [|c s IH]; [done|].
  simpl. destruct (decide (CR = c)) as [<-|N]; [done|]. intros H.
  rewrite decide_False by done. by rewrite IH.
Qed.

(** *** [replace] itself *)

Lemma replace_nonempty a o new s :
  replace (String a o) new s = replace_scan 0 (String a o) new s.
Proof. reflexivity. Qed.

Lemma replace_leftmost old new pre post :
  old <> "" -> leftmost old pre post ->
  replace old new (pre +:+ old +:+ post)
  = pre +:+ new +:+ replace old new post.
Proof.
  destruct old as [|a o]; [done|]. intros _.
  rewrite !replace_nonempty. apply replace_scan_leftmost.
Qed.

Lemma replace_contains_new old new s :
  old <> "" -> contains old s = true ->
  contains new (replace old new s) = true.
Proof.
  destruct old as [|a o]; [done|]. intros _.
  rewrite replace_nonempty. apply replace_scan_contains_new.
Qed.

(** A template with nothing that could start the pattern before its
    one placeholder and nothing that could end it after: the
    placeholder is exchanged for [new], and the result is free of the
    pattern when [new] is. *)
Lemma replace_clean a o z new pre post :
  last_char (String a o) = Some z ->
  has_char a pre = false -> has_char z post = false ->
  replace (String a o) new (pre +:+ String a o +:+ post)
  = pre +:+ new +:+ post /\
  (contains (String a o) new = false ->
   contains (String a o) (pre +:+ new +:+ post) = false).
Proof.
  intros Hz Hpre Hpost. split.
  - rewrite replace_nonempty, replace_scan_skip_pre by done.
    rewrite replace_scan_match, replace_scan_absent; [done|].
    eapply has_char_contains; [by apply last_char_has_char|done].
  - intros Hnew. rewrite contains_skip_pre by done.
    by eapply contains_straddle.
Qed.
End StrFacts.

(** ** The model at work *)

Example replace_all_occurrences :
  Str.replace "{{x}}" "ab" "1{{x}}2{{x}}3" = "1ab2ab3".
Proof. reflexivity. Qed.

Example replace_empty_pattern : Str.replace "" "-" "abc" = "-a-b-c-".
Proof. reflexivity. Qed.

Example universal_newlines_cr : Str.universal_newlines cr_text = lf_text.
Proof. reflexivity. Qed.

Example dirname_of_list_path :
  dirname (LIST_PATH sample_cfg) = "/repo/demo-list".
Proof. reflexivity. Qed.

Example dirname_of_bare_name : dirname "draft.md" = "".
Proof. reflexivity. Qed.

Example create_in_calm_world :
  fst (create_list sample_cfg sample_agent "Create a list" None calm_world)
  = Return (Some "# Awesome Things").
Proof. vm_compute. reflexivity. Qed.

Example init_in_calm_world :
  fst (__init__ sample_cfg None calm_world) = Return sample_agent.
Proof. vm_compute. reflexivity. Qed.

(** ** The world *)

(** ** Paths *)

Lemma path_div_relative d c child :
  c <> "/"%char -> path_div d (String c child) = d +:+ "/" +:+ String c child.
Proof. intros H. unfold path_div. simpl. by rewrite decide_False. Qed.

Lemma LIST_STARTER_neq_LIST_PATH cfg : LIST_STARTER cfg ≠ LIST_PATH cfg.
Proof. unfold LIST_STARTER, LIST_PATH. intros H%(inj (String.app _)). done. Qed.

Lemma LIST_DRAFT_neq_LIST_PATH cfg : LIST_DRAFT cfg ≠ LIST_PATH cfg.
Proof. unfold LIST_DRAFT, LIST_PATH. intros H%(inj (String.app _)). done. Qed.

Lemma LIST_DRAFT_neq_LIST_STARTER cfg : LIST_DRAFT cfg ≠ LIST_STARTER cfg.
Proof. unfold LIST_DRAFT, LIST_STARTER. intros H%(inj (String.app _)). done. Qed.

Lemma dirname_head_slash p :
  Str.has_char "/" p = true -> exists c s, dirname_head p = String c s.
Proof. destruct p as [|c p]; [done|]. intros H. simpl in *. rewrite H. eauto. Qed.

Lemma rstrip_slashes_nonempty s :
  all_slashes s = false -> exists c t, rstrip_slashes s = String c t.
Proof. destruct s as [|c s]; [done|]. intros H. simpl in *. rewrite H. eauto. Qed.

Lemma dirname_slash p :
  Str.has_char "/" p = true -> exists c s, dirname p = String c s.
Proof.
  intros (c & s & E)%dirname_head_slash. unfold dirname. rewrite E.
  destruct (all_slashes (String c s)) eqn:A; [eauto|].
  by apply rstrip_slashes_nonempty.
Qed.

Lemma dirname_path_div d c child :
  c <> "/"%char -> exists a s, dirname (path_div d (String c child)) = String a s.
Proof.
  intros H. apply dirname_slash. rewrite path_div_relative by done.
  rewrite StrFacts.has_char_app. apply orb_true_iff. right. done.
Qed.



Lemma dirname_LIST_DRAFT cfg : exists a s, dirname (LIST_DRAFT cfg) = String a s.
Proof. by apply dirname_path_div. Qed.

(** ** Truthiness *)

Lemma por_falsy o d : truthy o = false -> por o d = d.
Proof. by destruct o as [[|]|]. Qed.

(** ** The log *)

Lemma requests_app l1 l2 : requests (l1 ++ l2) = requests l1 ++ requests l2.
Proof. induction l1 as [|[]]; simpl; by f_equal. Qed.

Lemma opened_app l1 l2 : opened (l1 ++ l2) = opened l1 ++ opened l2.
Proof. induction l1 as [|[]]; simpl; by f_equal. Qed.

(** ** The monad *)

Lemma bind_Return {A B} (c : M A) (k : A -> M B) w a w1 :
  c w = (Return a, w1) -> bind c k w = k a w1.
Proof. unfold bind. by intros ->. Qed.

Lemma bind_Raise {A B} (c : M A) (k : A -> M B) w e w1 :
  c w = (Raise e, w1) -> bind c k w = (Raise e, w1).
Proof. unfold bind. by intros ->. Qed.

Lemma bind_inv {A B} (c : M A) (k : A -> M B) w r w' :
  bind c k w = (r, w') ->
  (exists a w1, c w = (Return a, w1) /\ k a w1 = (r, w')) \/
  (exists e, c w = (Raise e, w') /\ r = Raise e).
Proof.
  unfold bind. destruct (c w) as [[a|e] w1]; intros H.
  - left. eauto.
  - right. exists e. by simplify_eq.
Qed.

(** ** [write_file_content] *)

Section Write.
Context (p : string) (w : World).

(** A write that returns has stored the whole text. *)
Lemma write_returns content w' :
  write_file_content p content w = (Return tt, w') ->
  exists T, content = Some T /\
    fs w' = <[p := T]> (fs w) /\
    remote w' = remote w /\
    log w' = log w ++ [Opened p; Wrote p T].
Proof.
  unfold write_file_content, next_fault.
  destruct (dirname p); [done|].
  destruct (faults w) as [|[] l], content as [T|]; simpl; intros H;
    simplify_eq; exists T; simpl;
    rewrite ?insert_insert_eq, <- ?app_assoc; done.
Qed.

(** Whatever happens, a write leaves the other files, the provider and
    the requests made so far alone. *)
Lemma write_frame content r w' :
  write_file_content p content w = (r, w') ->
  remote w' = remote w /\
  requests (log w') = requests (log w) /\
  forall q, q ≠ p -> fs w' !! q = fs w !! q.
Proof.
  unfold write_file_content, next_fault.
  destruct (dirname p); [by intros [= <- <-]|].
  destruct (faults w) as [|[] l], content as [T|]; simpl; intros H;
    simplify_eq; simpl; rewrite ?requests_app, ?app_nil_r;
    (split; [done|split; [done|]]); intros q Hq;
    by rewrite ?lookup_insert_ne.
Qed.


(** Writing [None] empties the file and raises. *)
Lemma write_None r w' :
  write_file_content p None w = (r, w') ->
  exists e, r = Raise e /\ (fs w' = fs w \/ fs w' = <[p := ""]> (fs w)).
Proof.
  unfold write_file_content, next_fault.
  destruct (dirname p); [intros [= <- <-]; eauto|].
  destruct (faults w) as [|[] l]; simpl; intros H; simplify_eq; eauto.
Qed.
End Write.

(** ** Saving to the snapshot and to the main list file *)

Section Save.
Context (cfg : Config) (snapshot : string).

Lemma save_both_returns content w r w' :
  save_both cfg snapshot content w = (Return r, w') ->
  exists T, content = Some T /\ r = Some T /\
    fs w' = <[LIST_PATH cfg := T]> (<[snapshot := T]> (fs w)) /\
    remote w' = remote w /\
    log w' = log w ++ [Opened snapshot; Wrote snapshot T;
                       Opened (LIST_PATH cfg); Wrote (LIST_PATH cfg) T].
Proof.
  unfold save_both. intros H.
  apply bind_inv in H as [([] & w1 & H1 & H)|(e & _ & ?)]; [|done].
  apply bind_inv in H as [([] & w2 & H2 & H)|(e & _ & ?)]; [|done].
  apply write_returns in H1 as (T & -> & F1 & R1 & L1).
  apply write_returns in H2 as (T' & ? & F2 & R2 & L2).
  unfold ret in H. simplify_eq. exists T'.
  rewrite F2, F1, R2, R1, L2, L1, <- app_assoc. done.
Qed.

Lemma save_both_frame content w r w' :
  save_both cfg snapshot content w = (r, w') ->
  remote w' = remote w /\
  requests (log w') = requests (log w) /\
  forall q, q ≠ snapshot -> q ≠ LIST_PATH cfg -> fs w' !! q = fs w !! q.
Proof.
  unfold save_both. intros H.
  apply bind_inv in H as [([] & w1 & H1 & H)|(e & H1 & ?)];
    apply write_frame in H1 as (R1 & L1 & F1); [|by auto].
  apply bind_inv in H as [([] & w2 & H2 & H)|(e & H2 & ?)];
    apply write_frame in H2 as (R2 & L2 & F2).
  - unfold ret in H. simplify_eq.
    rewrite R2, R1, L2, L1. repeat split. intros q ? ?.
    by rewrite F2, F1.
  - rewrite R2, R1, L2, L1. repeat split. intros q ? ?.
    by rewrite F2, F1.
Qed.

End Save.

(** ** From the answer of the provider on *)

Section AfterAnswer.
Context (cfg : Config) (snapshot : string) (req : Request).

(** One request is made, and no file other than the snapshot and the
    main list file is touched. *)
Lemma after_answer_frame w r w' :
  after_answer cfg snapshot req w = (r, w') ->
  requests (log w') = requests (log w) ++ [req] /\
  forall q, q ≠ snapshot -> q ≠ LIST_PATH cfg -> fs w' !! q = fs w !! q.
Proof.
  unfold after_answer.
  destruct (remote _ _ _) as [[|c cs]|msg]; intros H.
  1, 3: simplify_eq; simpl; by rewrite requests_app.
  apply save_both_frame in H as (_ & -> & F).
  simpl. by rewrite requests_app.
Qed.

Lemma after_answer_returns w r w' :
  after_answer cfg snapshot req w = (Return r, w') ->
  persisted cfg snapshot w r w' /\
  opened (log w') = opened (log w) ++ [snapshot; LIST_PATH cfg].
Proof.
  unfold after_answer.
  destruct (remote _ _ _) as [[|c cs]|msg] eqn:E; intros H; [done| |done].
  apply save_both_returns in H as (T & -> & -> & F & R & L).
  split.
  - exists T, req, cs. rewrite F, L. simpl.
    rewrite !requests_app, app_nil_r, lookup_insert_eq. simpl.
    repeat split; try done.
    destruct (decide (LIST_PATH cfg = snapshot)) as [<-|N].
    + apply lookup_insert_eq.
    + rewrite lookup_insert_ne by done. apply lookup_insert_eq.
  - rewrite L. simpl. rewrite !opened_app. simpl. by rewrite app_nil_r.
Qed.

Lemma after_answer_failure w msg :
  remote w (requests (log w)) req = Failure msg ->
  after_answer cfg snapshot req w = (Raise (APIError msg), emit (Called req) w).
Proof. unfold after_answer. by intros ->. Qed.
End AfterAnswer.

(** ** The two methods up to the request *)

Section Methods.
Context (cfg : Config) (self : AwesomeListAgent) (user_input : string).

Lemma example_path_of_pure example_name w r w' :
  example_path_of cfg example_name w = (r, w') -> w' = w.
Proof.
  unfold example_path_of. destruct example_name as [[|c s]|].
  1, 3: by intros [= _ <-].
  unfold bind, path_exists. case_bool_decide; by intros [= _ <-].
Qed.

Lemma create_list_unfold example_name w p text :
  example_path_of cfg example_name w = (Return p, w) ->
  fs w !! p = Some text ->
  create_list cfg self user_input example_name w
  = after_answer cfg (LIST_STARTER cfg)
      (creation_request cfg self user_input (Str.universal_newlines text)) w.
Proof.
  intros Hp Ht. unfold create_list.
  rewrite (bind_Return _ _ _ _ _ Hp).
  unfold bind at 1. unfold read_file_content at 1. rewrite Ht.
  unfold after_answer, creation_request, bind at 1, chat_completions_create.
  destruct (remote _ _ _) as [[|c cs]|msg]; reflexivity.
Qed.

(** An operation that does not reach the provider leaves the world as
    it was. *)
Lemma create_list_reaches example_name w r w' :
  create_list cfg self user_input example_name w = (r, w') ->
  (exists p text, example_path_of cfg example_name w = (Return p, w) /\
                  fs w !! p = Some text) \/
  (w' = w /\ exists e, r = Raise e).
Proof.
  unfold create_list. intros H.
  apply bind_inv in H as [(p & w1 & Hp & H)|(e & Hp & ->)].
  - pose proof (example_path_of_pure _ _ _ _ Hp) as ->.
    destruct (fs w !! p) as [text|] eqn:Ht; [left; eauto|right].
    unfold bind at 1, read_file_content at 1 in H. rewrite Ht in H.
    simplify_eq. eauto.
  - right. pose proof (example_path_of_pure _ _ _ _ Hp) as ->. eauto.
Qed.

Lemma edit_list_unfold list_path draft_path w text :
  fs w !! por list_path (LIST_PATH cfg) = Some text ->
  edit_list cfg self user_input list_path draft_path w
  = after_answer cfg (por draft_path (LIST_DRAFT cfg))
      (edit_request cfg self user_input (Str.universal_newlines text)) w.
Proof.
  intros Ht. unfold edit_list.
  unfold bind at 1. unfold read_file_content at 1. rewrite Ht.
  unfold after_answer, edit_request, bind at 1, chat_completions_create.
  destruct (remote _ _ _) as [[|c cs]|msg]; reflexivity.
Qed.

Lemma edit_list_missing list_path draft_path w :
  fs w !! por list_path (LIST_PATH cfg) = None ->
  edit_list cfg self user_input list_path draft_path w
  = (Raise (FileNotFoundError (por list_path (LIST_PATH cfg))), w).
Proof.
  intros Ht. unfold edit_list, bind at 1, read_file_content at 1.
  by rewrite Ht.
Qed.
End Methods.

(** ** Which files an operation can touch *)

Section Frames.
Context (cfg : Config) (self : AwesomeListAgent).

Lemma create_list_frame user_input example_name w r w' :
  create_list cfg self user_input example_name w = (r, w') ->
  forall q, q ≠ LIST_STARTER cfg -> q ≠ LIST_PATH cfg ->
            fs w' !! q = fs w !! q.
Proof.
  intros H.
  destruct (create_list_reaches _ _ _ _ _ _ _ H)
    as [(p & text & Hp & Ht)|(-> & _)]; [|done].
  rewrite (create_list_unfold _ _ _ _ _ _ _ Hp Ht) in H.
  by apply after_answer_frame in H as [_ F].
Qed.

Lemma edit_list_frame user_input list_path draft_path w r w' :
  edit_list cfg self user_input list_path draft_path w = (r, w') ->
  forall q, q ≠ por draft_path (LIST_DRAFT cfg) -> q ≠ LIST_PATH cfg ->
            fs w' !! q = fs w !! q.
Proof.
  intros H.
  destruct (fs w !! por list_path (LIST_PATH cfg)) as [text|] eqn:Ht.
  - rewrite (edit_list_unfold _ _ _ _ _ _ _ Ht) in H.
    by apply after_answer_frame in H as [_ F].
  - rewrite edit_list_missing in H by done. by simplify_eq.
Qed.

(** A file survives a run of operations none of which can touch it. *)
Lemma session_frame (keeps : Op -> Prop) q :
  (forall op w, keeps op ->
      fs (snd (perform cfg self op w)) !! q = fs w !! q) ->
  forall ops w, Forall keeps ops ->
    fs (session cfg self ops w) !! q = fs w !! q.
Proof.
  intros Hstep ops. induction ops as [|op ops IH]; intros w Hall; [done|].
  apply Forall_cons in Hall as [Hop Hall].
  simpl. rewrite IH by done. by apply Hstep.
Qed.
End Frames.

(** ** An operation that returns *)

Section Returns.
Context (cfg : Config) (self : AwesomeListAgent) (user_input : string).

Lemma create_list_returns example_name w r w' :
  create_list cfg self user_input example_name w = (Return r, w') ->
  persisted cfg (LIST_STARTER cfg) w r w' /\
  opened (log w') = opened (log w) ++ [LIST_STARTER cfg; LIST_PATH cfg].
Proof.
  intros H.
  destruct (create_list_reaches _ _ _ _ _ _ _ H)
    as [(p & text & Hp & Ht)|(_ & e & ?)]; [|done].
  rewrite (create_list_unfold _ _ _ _ _ _ _ Hp Ht) in H.
  by apply after_answer_returns in H.
Qed.

Lemma edit_list_returns list_path draft_path w r w' :
  edit_list cfg self user_input list_path draft_path w = (Return r, w') ->
  persisted cfg (por draft_path (LIST_DRAFT cfg)) w r w' /\
  opened (log w')
  = opened (log w) ++ [por draft_path (LIST_DRAFT cfg); LIST_PATH cfg].
Proof.
  intros H.
  destruct (fs w !! por list_path (LIST_PATH cfg)) as [text|] eqn:Ht.
  - rewrite (edit_list_unfold _ _ _ _ _ _ _ Ht) in H.
    by apply after_answer_returns in H.
  - by rewrite edit_list_missing in H.
Qed.
End Returns.

(** * The claims *)

(** ** C1 *)

(** C1. A create operation that returns has made one request to the
    provider, returns the text [T] of the first choice of the answer, and
    leaves both the starter file and the main list file holding exactly
    [T]; an edit operation that returns does the same with its draft file
    (the draft-edit file unless the caller names another) and the main
    list file. *)
Theorem success_persists cfg self user_input w r w' :
  (forall example_name,
      create_list cfg self user_input example_name w = (Return r, w') ->
      persisted cfg (LIST_STARTER cfg) w r w') /\
  (forall list_path draft_path,
      edit_list cfg self user_input list_path draft_path w = (Return r, w') ->
      persisted cfg (por draft_path (LIST_DRAFT cfg)) w r w').
Proof.
  split.
  - intros example_name H. by apply create_list_returns in H as [? _].
  - intros list_path draft_path H. by apply edit_list_returns in H as [? _].
Qed.

Lemma success_persists_witness :
  persisted sample_cfg (LIST_STARTER sample_cfg) calm_world
    (Some "# Awesome Things")
    (snd (create_list sample_cfg sample_agent "Create a list" None calm_world)) /\
  persisted sample_cfg (LIST_DRAFT sample_cfg) calm_world
    (Some "# Awesome Things")
    (snd (edit_list sample_cfg sample_agent "Add a section" None None calm_world)).
Proof.
  split.
  - apply (proj1 (success_persists sample_cfg sample_agent "Create a list"
                    calm_world _ _) None).
    vm_compute. reflexivity.
  - apply (proj2 (success_persists sample_cfg sample_agent "Add a section"
                    calm_world _ _) None None).
    vm_compute. reflexivity.
Defined.

(** ** C2 *)

(** C2. With neither the OpenRouter key nor the OpenAI key present, the
    agent cannot be built: [_get_client] raises the [ValueError] "No API
    key provided" before anything else is done, so every create and every
    edit ends in that error with the world as it was, and in particular
    with no request made to the provider. *)
Theorem no_credential_fails_fast cfg model_arg w :
  truthy (OPENROUTER_API_KEY cfg) = false ->
  truthy (OPENAI_API_KEY cfg) = false ->
  (forall user_input example_name,
      create cfg model_arg user_input example_name w = (Raise NO_API_KEY, w)) /\
  (forall edits, edit cfg model_arg edits w = (Raise NO_API_KEY, w)) /\
  provider_calls (log (snd (__init__ cfg model_arg w))) = provider_calls (log w).
Proof.
  intros H1 H2.
  assert (__init__ cfg model_arg w = (Raise NO_API_KEY, w)) as Hinit.
  { unfold __init__, _get_client. rewrite H1, H2. reflexivity. }
  repeat split; intros.
  - unfold create. by rewrite (bind_Raise _ _ _ _ _ Hinit).
  - unfold edit. by rewrite (bind_Raise _ _ _ _ _ Hinit).
  - by rewrite Hinit.
Qed.

Lemma no_credential_fails_fast_witness :
  create no_key_cfg None "Create a list" None calm_world
    = (Raise NO_API_KEY, calm_world) /\
  edit no_key_cfg None "Add a section" calm_world
    = (Raise NO_API_KEY, calm_world).
Proof.
  destruct (no_credential_fails_fast no_key_cfg None calm_world
              eq_refl eq_refl) as (Hc & He & _).
  split; [apply Hc | apply He].
Defined.

(** ** C9 *)



(** ** C5 *)

(** C5, as stated, fails: a create given the empty name has no example
    document of that name, and yet it does not fail; it takes the default
    example and writes both files. *)
Lemma empty_example_name_selects_default :
  fs calm_world !! path_div (EXAMPLES_DIR sample_cfg) ("" +:+ ".md") = None /\
  fst (create_list sample_cfg sample_agent "Create a list" (Some "") calm_world)
    = Return (Some "# Awesome Things") /\
  fs (snd (create_list sample_cfg sample_agent "Create a list" (Some "")
             calm_world))
    !! LIST_STARTER sample_cfg = Some "# Awesome Things" /\
  fs (snd (create_list sample_cfg sample_agent "Create a list" (Some "")
             calm_world))
    !! LIST_PATH sample_cfg = Some "# Awesome Things".
Proof. repeat split; vm_compute; reflexivity. Qed.

(** C5, amended. A create given a name that is not empty and is a plain
    file name (no slash in it; a name with a slash is resolved by
    [pathlib] and by the file system, [./x] selecting [x.md]) for which
    the examples directory has no file raises the [ValueError] that names
    the example; a create given the empty name is a create given no
    name; an edit on the default list path when the main list file is
    absent raises [FileNotFoundError] for it. The failing operations
    leave the world as it was, so no file is written. *)
Theorem missing_input_writes_nothing cfg self user_input w :
  (forall c s,
      Str.has_char "/" (String c s) = false ->
      fs w !! path_div (EXAMPLES_DIR cfg) (String c s +:+ ".md") = None ->
      create_list cfg self user_input (Some (String c s)) w
      = (Raise (ValueError ("Example '" +:+ String c s +:+ "' not found")), w)) /\
  create_list cfg self user_input (Some "") w
  = create_list cfg self user_input None w /\
  (forall list_path draft_path,
      truthy list_path = false ->
      fs w !! LIST_PATH cfg = None ->
      edit_list cfg self user_input list_path draft_path w
      = (Raise (FileNotFoundError (LIST_PATH cfg)), w)).
Proof.
  split; [|split].
  - intros c s _ H. unfold create_list, example_path_of, bind, path_exists.
    rewrite H. rewrite bool_decide_eq_false_2; [done|].
    by intros [? ?].
  - reflexivity.
  - intros list_path draft_path Hl H.
    rewrite <- (por_falsy list_path (LIST_PATH cfg) Hl) in H.
    rewrite (edit_list_missing _ _ _ _ _ _ H).
    by rewrite por_falsy.
Qed.

Lemma missing_input_writes_nothing_witness :
  create_list sample_cfg sample_agent "Create a list" (Some "no-such-example")
    calm_world
  = (Raise (ValueError "Example 'no-such-example' not found"), calm_world) /\
  edit_list sample_cfg sample_agent "Add a section" None None fresh_world
  = (Raise (FileNotFoundError "/repo/demo-list/awesome-list.md"), fresh_world).
Proof.
  split.
  - apply (proj1 (missing_input_writes_nothing sample_cfg sample_agent
                    "Create a list" calm_world) "n"%char "o-such-example").
    + vm_compute. reflexivity.
    + vm_compute. reflexivity.
  - apply (proj2 (proj2 (missing_input_writes_nothing sample_cfg sample_agent
                           "Add a section" fresh_world)) None None).
    + reflexivity.
    + vm_compute. reflexivity.
Defined.

(** ** C6 *)

(** C6, as stated, fails: on an overloaded provider the one call of a
    create raises, no file is opened for writing, and the provider has
    been sent the request three times. The same for an edit. *)
Lemma failing_request_is_sent_again :
  (let w' := snd (create_list sample_cfg sample_agent "Create a list" None
                    overloaded_world) in
   fst (create_list sample_cfg sample_agent "Create a list" None
          overloaded_world)
     = Raise (APIError "Error code: 503") /\
   opened (log w') = [] /\
   provider_calls (log w') = 1 /\
   requests_sent overloaded (log w') = 3) /\
  (let w' := snd (edit_list sample_cfg sample_agent "Add a section" None None
                    overloaded_world) in
   fst (edit_list sample_cfg sample_agent "Add a section" None None
          overloaded_world)
     = Raise (APIError "Error code: 503") /\
   opened (log w') = [] /\
   provider_calls (log w') = 1 /\
   requests_sent overloaded (log w') = 3).
Proof. repeat split; vm_compute; reflexivity. Qed.

Lemma requests_sent_app endpoint l1 l2 :
  requests_sent endpoint (l1 ++ l2)
  = requests_sent endpoint l1 + requests_sent endpoint l2.
Proof.
  unfold requests_sent. by rewrite requests_app, sum_list_with_app.
Qed.

(** What one call sends: at least one request and at most
    [retries_left] more; every sending but the last met an error that is
    retried; the call gives the answer of the last sending, and when it
    fails, the last sending met an error that is not retried or the
    retries were used up. *)
Lemma send_spec endpoint req k sent :
  let (resp, n) := send endpoint k sent req in
  sent < n <= S (sent + k) /\
  (forall i, sent <= i -> S i < n -> exists m, endpoint i req = Retryable m) /\
  match resp with
  | ChatCompletion choices => endpoint (n - 1) req = Answered choices
  | Failure m =>
      endpoint (n - 1) req = Fatal m \/
      (n = S (sent + k) /\ endpoint (n - 1) req = Retryable m)
  end.
Proof.
  revert sent. induction k as [|k IH]; intros sent; simpl.
  - destruct (endpoint sent req) eqn:E; simpl;
      rewrite ?Nat.sub_0_r, ?Nat.add_0_r;
      (split; [lia|]); (split; [intros; lia|]); eauto.
  - destruct (endpoint sent req) eqn:E; simpl; rewrite ?Nat.sub_0_r.
    1, 3: (split; [lia|]); (split; [intros; lia|]); eauto.
    specialize (IH (S sent)).
    destruct (send endpoint k (S sent) req) as [resp n].
    destruct IH as (Hn & Hbefore & Hlast).
    split; [lia|]. split.
    + intros i Hi1 Hi2.
      destruct (decide (i = sent)) as [->|N]; [eauto|].
      apply Hbefore; lia.
    + destruct resp; [done|].
      destruct Hlast as [?|[-> ?]]; [by left|right].
      split; [lia|done].
Qed.

(** C6, amended. When the call to the client fails on the request of a
    create or of an edit, the operation raises the error of the call; the
    world it leaves differs from the one it found by that one call in the
    log: the agent calls the client once, does not call it again, and no
    file is written. The client itself sends the request of a call
    between one and [1 + DEFAULT_MAX_RETRIES] times: every sending before
    the last met a retryable error, a call that answers gives the answer
    of its last sending, and a call that fails has had its last sending
    meet an error that is not retried, or its third meet a retryable
    one. *)
Theorem provider_failure_writes_nothing cfg self user_input w msg :
  (forall example_name p text,
      example_path_of cfg example_name w = (Return p, w) ->
      fs w !! p = Some text ->
      let req := creation_request cfg self user_input
                   (Str.universal_newlines text) in
      remote w (requests (log w)) req = Failure msg ->
      let (r, w') := create_list cfg self user_input example_name w in
      r = Raise (APIError msg) /\ fs w' = fs w /\
      log w' = log w ++ [Called req] /\
      provider_calls (log w') = S (provider_calls (log w))) /\
  (forall list_path draft_path text,
      fs w !! por list_path (LIST_PATH cfg) = Some text ->
      let req := edit_request cfg self user_input
                   (Str.universal_newlines text) in
      remote w (requests (log w)) req = Failure msg ->
      let (r, w') := edit_list cfg self user_input list_path draft_path w in
      r = Raise (APIError msg) /\ fs w' = fs w /\
      log w' = log w ++ [Called req] /\
      provider_calls (log w') = S (provider_calls (log w))) /\
  (forall endpoint l req,
      let (resp, n) := send endpoint DEFAULT_MAX_RETRIES 0 req in
      through_client endpoint (requests l) req = resp /\
      requests_sent endpoint (l ++ [Called req])
      = requests_sent endpoint l + n /\
      1 <= n <= S DEFAULT_MAX_RETRIES /\
      (forall i, S i < n -> exists m, endpoint i req = Retryable m) /\
      match resp with
      | ChatCompletion choices => endpoint (n - 1) req = Answered choices
      | Failure m =>
          endpoint (n - 1) req = Fatal m \/
          (n = S DEFAULT_MAX_RETRIES /\ endpoint (n - 1) req = Retryable m)
      end).
Proof.
  split; [|split].
  - intros example_name p text Hp Ht req Hr.
    rewrite (create_list_unfold _ _ _ _ _ _ _ Hp Ht).
    rewrite (after_answer_failure _ _ _ _ _ Hr). simpl.
    unfold provider_calls. rewrite requests_app, length_app. simpl.
    repeat split. lia.
  - intros list_path draft_path text Ht req Hr.
    rewrite (edit_list_unfold _ _ _ _ _ _ _ Ht).
    rewrite (after_answer_failure _ _ _ _ _ Hr). simpl.
    unfold provider_calls. rewrite requests_app, length_app. simpl.
    repeat split. lia.
  - intros endpoint l req.
    pose proof (send_spec endpoint req DEFAULT_MAX_RETRIES 0) as H.
    rewrite requests_sent_app. unfold through_client.
    change (requests_sent endpoint [Called req])
      with (snd (send endpoint DEFAULT_MAX_RETRIES 0 req) + 0).
    destruct (send endpoint DEFAULT_MAX_RETRIES 0 req) as [resp n].
    destruct H as (Hn & Hbefore & Hlast). cbn [fst snd].
    split; [done|]. split; [lia|]. split; [lia|]. split; [|exact Hlast].
    intros i Hi. apply Hbefore; lia.
Qed.

Lemma provider_failure_writes_nothing_witness :
  fst (create_list sample_cfg sample_agent "Create a list" None down_world)
    = Raise (APIError "Connection error.") /\
  fst (edit_list sample_cfg sample_agent "Add a section" None None down_world)
    = Raise (APIError "Connection error.").
Proof.
  pose proof (provider_failure_writes_nothing sample_cfg sample_agent
                "Create a list" down_world "Connection error.") as [Hc _].
  pose proof (provider_failure_writes_nothing sample_cfg sample_agent
                "Add a section" down_world "Connection error.") as (_ & He & _).
  specialize (Hc None (DEFAULT_EXAMPLE_PATH sample_cfg) "# Awesome Android"
                eq_refl eq_refl eq_refl).
  specialize (He None None "# My List" eq_refl eq_refl).
  split.
  - destruct (create_list _ _ _ _ _). apply Hc.
  - destruct (edit_list _ _ _ _ _ _). apply He.
Defined.

(** ** C7 *)

(** C7, as stated, fails: on a template with the placeholder twice both
    occurrences are replaced, and the result is not the template with one
    occurrence exchanged. *)
Lemma replace_not_exactly_one :
  Str.replace EXAMPLE_TOKEN "x" "{{example}}{{example}}" = "xx" /\
  ~ Str.replaces_exactly_one EXAMPLE_TOKEN "x" "{{example}}{{example}}"
      (Str.replace EXAMPLE_TOKEN "x" "{{example}}{{example}}").
Proof.
  split; [reflexivity|].
  intros (pre & post & Ht & Hr).
  apply (f_equal String.length) in Ht, Hr.
  rewrite !StrFacts.length_app in Ht, Hr. simpl in Ht, Hr. lia.
Qed.

(** C7, amended. Substitution is [str.replace] without a count: a
    template without the placeholder is returned unchanged, and in a
    template with the placeholder the leftmost occurrence is exchanged
    for the new text and the substitution goes on in the rest, so that
    every occurrence is replaced; exactly one is replaced when the
    template has exactly one. *)
Theorem replace_every_occurrence old new :
  (forall t, Str.contains old t = false -> Str.replace old new t = t) /\
  (forall pre post,
      old <> "" -> Str.leftmost old pre post ->
      Str.replace old new (pre +:+ old +:+ post)
      = pre +:+ new +:+ Str.replace old new post) /\
  (forall pre post,
      old <> "" -> Str.leftmost old pre post ->
      Str.contains old post = false ->
      Str.replace old new (pre +:+ old +:+ post) = pre +:+ new +:+ post).
Proof.
  split; [|split].
  - intros t. apply StrFacts.replace_absent.
  - intros pre post. apply StrFacts.replace_leftmost.
  - intros pre post Hne L Hpost.
    rewrite StrFacts.replace_leftmost by done.
    by rewrite StrFacts.replace_absent.
Qed.

Lemma leftmost_sample :
  Str.leftmost EXAMPLE_TOKEN "Write a list like this one: " " Thanks.".
Proof.
  intros pre' post' E.
  destruct (decide (String.length pre' < 28)) as [Hlt|]; [exfalso|simpl; lia].
  do 28 (destruct pre' as [|? pre']; [by vm_compute in E|];
         rewrite StrFacts.app_cons in E; injection E as <- E).
  simpl in Hlt. lia.
Qed.

Lemma replace_every_occurrence_witness :
  Str.replace EXAMPLE_TOKEN "# Awesome Android" "No placeholder here."
    = "No placeholder here." /\
  Str.replace EXAMPLE_TOKEN "# Awesome Android" (creator_prompt sample_agent)
    = "Write a list like this one: # Awesome Android Thanks.".
Proof.
  pose proof (replace_every_occurrence EXAMPLE_TOKEN "# Awesome Android")
    as (H0 & _ & H1).
  split.
  - apply H0. reflexivity.
  - apply (H1 "Write a list like this one: " " Thanks.");
      [discriminate | apply leftmost_sample | reflexivity].
Defined.

(** ** C3 *)

(** C3, as stated, fails: an example that mentions the placeholder
    leaves a literal placeholder in the creation prompt, and so does a
    current list that mentions its placeholder in the edit prompt. *)
Lemma token_survives_substitution :
  (exists P,
      map prompt_of
        (requests (log (snd (create_list sample_cfg sample_agent
                               "Create a list" None quoting_world)))) = [P] /\
      Str.contains EXAMPLE_TOKEN P = true) /\
  (exists P,
      map prompt_of
        (requests (log (snd (edit_list sample_cfg sample_agent
                               "Add a section" None None quoting_world)))) = [P] /\
      Str.contains LISTPATH_TOKEN P = true).
Proof.
  split.
  - exists "Write a list like this one: Put {{example}} in the prompt Thanks.".
    split; vm_compute; reflexivity.
  - exists "Edit this list: Use {{listpath}} here Thanks.".
    split; vm_compute; reflexivity.
Qed.

Lemma substituted_replace a o z template text :
  Str.last_char (String a o) = Some z ->
  substituted (String a o) a z template text
    (Str.replace (String a o) text template).
Proof.
  intros Hz. split; [|split].
  - apply StrFacts.replace_absent.
  - by apply StrFacts.replace_contains_new.
  - intros pre post -> Hpre Hpost.
    destruct (StrFacts.replace_clean a o z text pre post Hz Hpre Hpost)
      as [-> H].
    done.
Qed.

(** C3, amended. The one request of a create carries as system prompt
    [creator_prompt.replace("{{example}}", example)], the example being
    the text as read. A template without the placeholder is the prompt
    as it is; the prompt contains the example verbatim whenever the
    template has the placeholder; and when the template has no opening
    brace before its placeholder and no closing brace after it, the
    prompt is the template with the example in the place of the
    placeholder and has no placeholder left if the example has none. The
    same holds for an edit, the editor template, [{{listpath}}] and the
    current list. *)
Theorem prompt_carries_text cfg self user_input w r w' :
  (forall example_name p text,
      example_path_of cfg example_name w = (Return p, w) ->
      fs w !! p = Some text ->
      create_list cfg self user_input example_name w = (r, w') ->
      map prompt_of (requests (log w'))
      = map prompt_of (requests (log w))
        ++ [Str.replace EXAMPLE_TOKEN (Str.universal_newlines text)
              (creator_prompt self)] /\
      substituted EXAMPLE_TOKEN "{" "}" (creator_prompt self)
        (Str.universal_newlines text)
        (Str.replace EXAMPLE_TOKEN (Str.universal_newlines text)
           (creator_prompt self))) /\
  (forall list_path draft_path text,
      fs w !! por list_path (LIST_PATH cfg) = Some text ->
      edit_list cfg self user_input list_path draft_path w = (r, w') ->
      map prompt_of (requests (log w'))
      = map prompt_of (requests (log w))
        ++ [Str.replace LISTPATH_TOKEN (Str.universal_newlines text)
              (editor_prompt self)] /\
      substituted LISTPATH_TOKEN "{" "}" (editor_prompt self)
        (Str.universal_newlines text)
        (Str.replace LISTPATH_TOKEN (Str.universal_newlines text)
           (editor_prompt self))).
Proof.
  split.
  - intros example_name p text Hp Ht H.
    rewrite (create_list_unfold _ _ _ _ _ _ _ Hp Ht) in H.
    apply after_answer_frame in H as [-> _].
    split; [by rewrite map_app|].
    by apply substituted_replace.
  - intros list_path draft_path text Ht H.
    rewrite (edit_list_unfold _ _ _ _ _ _ _ Ht) in H.
    apply after_answer_frame in H as [-> _].
    split; [by rewrite map_app|].
    by apply substituted_replace.
Qed.

Lemma prompt_carries_text_witness :
  (map prompt_of
     (requests (log (snd (create_list sample_cfg sample_agent
                            "Create a list" None calm_world))))
   = [Str.replace EXAMPLE_TOKEN "# Awesome Android"
        (creator_prompt sample_agent)] /\
   substituted EXAMPLE_TOKEN "{" "}" (creator_prompt sample_agent)
     "# Awesome Android"
     (Str.replace EXAMPLE_TOKEN "# Awesome Android"
        (creator_prompt sample_agent))) /\
  (map prompt_of
     (requests (log (snd (edit_list sample_cfg sample_agent
                            "Add a section" None None calm_world))))
   = [Str.replace LISTPATH_TOKEN "# My List" (editor_prompt sample_agent)] /\
   substituted LISTPATH_TOKEN "{" "}" (editor_prompt sample_agent)
     "# My List"
     (Str.replace LISTPATH_TOKEN "# My List" (editor_prompt sample_agent))).
Proof.
  split.
  - apply (proj1 (prompt_carries_text sample_cfg sample_agent "Create a list"
                    calm_world
                    (fst (create_list sample_cfg sample_agent "Create a list"
                            None calm_world)) _)
             None (DEFAULT_EXAMPLE_PATH sample_cfg)
             "# Awesome Android" eq_refl eq_refl).
    apply surjective_pairing.
  - apply (proj2 (prompt_carries_text sample_cfg sample_agent "Add a section"
                    calm_world
                    (fst (edit_list sample_cfg sample_agent "Add a section"
                            None None calm_world)) _)
             None None "# My List" eq_refl).
    apply surjective_pairing.
Defined.

(** ** C4 *)

(** C4, as stated, fails: a text with a carriage return is written as it
    is and read back with a line feed in its place. *)
Lemma carriage_return_not_read_back :
  exists w',
    write_file_content (LIST_PATH sample_cfg) (Some cr_text) calm_world
      = (Return tt, w') /\
    read_file_content (LIST_PATH sample_cfg) w' = (Return lf_text, w') /\
    lf_text <> cr_text.
Proof.
  eexists. split; [vm_compute; reflexivity|].
  split; [vm_compute; reflexivity|discriminate].
Qed.

(** C4, amended. Reading a file right after a write of [X] to it that
    returned gives [X] with universal newlines applied, which is exactly
    [X] for every [X] without a carriage return. *)
Theorem read_after_write file_path X w w' :
  write_file_content file_path (Some X) w = (Return tt, w') ->
  read_file_content file_path w' = (Return (Str.universal_newlines X), w') /\
  (Str.has_char Str.CR X = false ->
   read_file_content file_path w' = (Return X, w')).
Proof.
  intros (T & [= <-] & F & _)%write_returns.
  assert (read_file_content file_path w'
          = (Return (Str.universal_newlines X), w')) as H.
  { unfold read_file_content. by rewrite F, lookup_insert_eq. }
  split; [done|]. intros Hcr.
  by rewrite H, StrFacts.universal_newlines_id.
Qed.

Lemma read_after_write_witness :
  read_file_content (LIST_STARTER sample_cfg)
    (snd (write_file_content (LIST_STARTER sample_cfg)
            (Some "# Awesome Things") calm_world))
  = (Return "# Awesome Things",
     snd (write_file_content (LIST_STARTER sample_cfg)
            (Some "# Awesome Things") calm_world)).
Proof.
  apply (read_after_write (LIST_STARTER sample_cfg) "# Awesome Things"
           calm_world).
  - vm_compute. reflexivity.
  - reflexivity.
Defined.

(** ** C8 *)

(** C8, as stated, fails: an edit told to save its draft to the starter
    file overwrites the starter, and a create whose answer carries no
    text empties the starter and raises, so that the starter no longer
    holds what the last create returned. *)
Lemma snapshot_not_by_kind_only :
  fs calm_world !! LIST_STARTER sample_cfg = Some "# Old starter" /\
  fs (snd (edit_list sample_cfg sample_agent "Add a section" None
             (Some (LIST_STARTER sample_cfg)) calm_world))
    !! LIST_STARTER sample_cfg = Some "# Awesome Things" /\
  fs silent_world !! LIST_STARTER sample_cfg = Some "# Old starter" /\
  fst (create_list sample_cfg sample_agent "Create a list" None silent_world)
    = Raise (TypeError "write() argument must be str, not None") /\
  fs (snd (create_list sample_cfg sample_agent "Create a list" None
             silent_world))
    !! LIST_STARTER sample_cfg = Some "".
Proof. repeat split; vm_compute; reflexivity. Qed.

(** C8, amended. A create never touches the draft-edit file, and an edit
    that saves its draft to the default place never touches the starter
    file. After a create that returned [T] the starter file holds [T]
    through any run of such edits, whether they succeed or not; after
    such an edit that returned [T] the draft-edit file holds [T] through
    any run of creates. *)
Theorem snapshots_by_kind cfg self :
  (forall user_input example_name w r w',
      create_list cfg self user_input example_name w = (r, w') ->
      fs w' !! LIST_DRAFT cfg = fs w !! LIST_DRAFT cfg) /\
  (forall user_input list_path draft_path w r w',
      truthy draft_path = false ->
      edit_list cfg self user_input list_path draft_path w = (r, w') ->
      fs w' !! LIST_STARTER cfg = fs w !! LIST_STARTER cfg) /\
  (forall user_input example_name w T w1 later,
      create_list cfg self user_input example_name w = (Return (Some T), w1) ->
      Forall spares_starter later ->
      fs (session cfg self later w1) !! LIST_STARTER cfg = Some T) /\
  (forall user_input list_path draft_path w T w1 later,
      truthy draft_path = false ->
      edit_list cfg self user_input list_path draft_path w
        = (Return (Some T), w1) ->
      Forall spares_draft later ->
      fs (session cfg self later w1) !! LIST_DRAFT cfg = Some T).
Proof.
  assert (forall user_input example_name w r w',
      create_list cfg self user_input example_name w = (r, w') ->
      fs w' !! LIST_DRAFT cfg = fs w !! LIST_DRAFT cfg) as Hcreate.
  { intros ? ? ? ? ? H. eapply create_list_frame; [exact H|..].
    - apply LIST_DRAFT_neq_LIST_STARTER.
    - apply LIST_DRAFT_neq_LIST_PATH. }
  assert (forall user_input list_path draft_path w r w',
      truthy draft_path = false ->
      edit_list cfg self user_input list_path draft_path w = (r, w') ->
      fs w' !! LIST_STARTER cfg = fs w !! LIST_STARTER cfg) as Hedit.
  { intros ? ? ? ? ? ? Hd H. eapply edit_list_frame; [exact H|..].
    - rewrite por_falsy by done. apply not_eq_sym, LIST_DRAFT_neq_LIST_STARTER.
    - apply LIST_STARTER_neq_LIST_PATH. }
  split; [exact Hcreate|]. split; [exact Hedit|]. split.
  - intros user_input example_name w T w1 later H Hall.
    rewrite (session_frame cfg self spares_starter); [|clear H Hall|done].
    + apply create_list_returns in H
        as [(T' & ? & ? & [= <-] & _ & _ & H & _) _]. done.
    + intros [ui ex|ui lp dp] w0 Hop; [done|]. simpl in *.
      destruct (edit_list cfg self ui lp dp w0) as [r0 w0'] eqn:E.
      by eapply Hedit.
  - intros user_input list_path draft_path w T w1 later Hd H Hall.
    rewrite (session_frame cfg self spares_draft); [|clear H Hall|done].
    + apply edit_list_returns in H
        as [(T' & ? & ? & [= <-] & _ & _ & H & _) _].
      by rewrite por_falsy in H.
    + intros [ui ex|ui lp dp] w0 Hop; simpl in *; [|done].
      destruct (create_list cfg self ui ex w0) as [r0 w0'] eqn:E.
      by eapply Hcreate.
Qed.

Lemma snapshots_by_kind_witness :
  fs (snd (create_list sample_cfg sample_agent "Create a list" None calm_world))
    !! LIST_DRAFT sample_cfg = fs calm_world !! LIST_DRAFT sample_cfg /\
  fs (snd (edit_list sample_cfg sample_agent "Add a section" None None
             calm_world))
    !! LIST_STARTER sample_cfg = fs calm_world !! LIST_STARTER sample_cfg /\
  fs (session sample_cfg sample_agent
        [OpEdit "Add a section" None None; OpEdit "Sort it" None None]
        (snd (create_list sample_cfg sample_agent "Create a list" None
                calm_world)))
    !! LIST_STARTER sample_cfg = Some "# Awesome Things" /\
  fs (session sample_cfg sample_agent
        [OpCreate "Create a list" None; OpCreate "Create another" None]
        (snd (edit_list sample_cfg sample_agent "Add a section" None None
                calm_world)))
    !! LIST_DRAFT sample_cfg = Some "# Awesome Things".
Proof.
  destruct (snapshots_by_kind sample_cfg sample_agent) as (H1 & H2 & H3 & H4).
  split; [|split; [|split]].
  - eapply H1. apply surjective_pairing.
  - eapply (H2 "Add a section" None None); [reflexivity|].
    apply surjective_pairing.
  - eapply (H3 "Create a list" None calm_world).
    + vm_compute. reflexivity.
    + repeat constructor.
  - eapply (H4 "Add a section" None None calm_world).
    + reflexivity.
    + vm_compute. reflexivity.
    + repeat constructor.
Defined.

(** ** C10 *)




(** * Facts about the rest of the program *)

(** ** Building the agent *)



(** ** Edits on other paths *)

(** X2. An edit told to read its list from another path builds its
    request from the text found there and, when it returns, has opened
    for writing its draft path and the main list path [LIST_PATH], in
    this order and nothing else: the text it returns is what both hold,
    whatever path the list was read from. *)
Theorem edit_reads_there_writes_here cfg self user_input c s draft_path w r w' :
  edit_list cfg self user_input (Some (String c s)) draft_path w
    = (Return r, w') ->
  (exists text,
      fs w !! String c s = Some text /\
      requests (log w')
      = requests (log w)
        ++ [edit_request cfg self user_input (Str.universal_newlines text)]) /\
  opened (log w')
  = opened (log w) ++ [por draft_path (LIST_DRAFT cfg); LIST_PATH cfg] /\
  fs w' !! por draft_path (LIST_DRAFT cfg) = r /\
  fs w' !! LIST_PATH cfg = r.
Proof.
  intros H.
  pose proof (edit_list_returns _ _ _ _ _ _ _ _ H)
    as [(T & req & rest & -> & _ & _ & Hd & Hl) Ho].
  split; [|done].
  destruct (fs w !! String c s) as [text|] eqn:Ht.
  - exists text. split; [done|].
    rewrite (edit_list_unfold cfg self user_input (Some (String c s))
               draft_path w text Ht) in H.
    by apply after_answer_frame in H as [-> _].
  - by rewrite (edit_list_missing cfg self user_input (Some (String c s))
                  draft_path w Ht) in H.
Qed.

(** X3. A draft path without a directory part makes an edit fail after
    the provider has answered: [os.makedirs("")] raises
    [FileNotFoundError], the request has been made and no file is
    written. *)
Theorem bare_draft_path_fails_late cfg self user_input list_path c s w text
    choice rest :
  Str.has_char "/" (String c s) = false ->
  fs w !! por list_path (LIST_PATH cfg) = Some text ->
  remote w (requests (log w))
    (edit_request cfg self user_input (Str.universal_newlines text))
  = ChatCompletion (choice :: rest) ->
  edit_list cfg self user_input list_path (Some (String c s)) w
  = (Raise (FileNotFoundError ""),
     emit (Called (edit_request cfg self user_input
                     (Str.universal_newlines text))) w).
Proof.
  intros Hs Ht Hr.
  rewrite (edit_list_unfold _ _ _ _ _ _ _ Ht).
  unfold after_answer. rewrite Hr.
  unfold save_both, bind, write_file_content.
  assert (dirname (por (Some (String c s)) (LIST_DRAFT cfg)) = "") as ->.
  { simpl por. unfold dirname. simpl dirname_head. simpl in Hs.
    destruct (decide ("/"%char = c)); [done|]. by rewrite Hs. }
  reflexivity.
Qed.

(** ** One operation after another *)


(** ** More about text *)

Module PyStrFacts.
Import Str PyStr.

Lemma endswith_refl s : endswith s s = true.
Proof. destruct s; cbn [endswith]; by rewrite bool_decide_eq_true_2. Qed.

Lemma endswith_app n suffix : endswith suffix (n +:+ suffix) = true.
Proof.
  induction n as [|c n IH]; [apply endswith_refl|].
  rewrite StrFacts.app_cons. cbn [endswith]. rewrite IH. apply orb_true_r.
Qed.

Lemma endswith_inv suffix s :
  endswith suffix s = true -> exists n, s = n +:+ suffix.
Proof.
  induction s as [|c s IH]; cbn [endswith].
  - intros ->%bool_decide_eq_true. by exists "".
  - intros [->%bool_decide_eq_true|H]%orb_true_iff; [by exists ""|].
    destruct (IH H) as [n ->]. by exists (String c n).
Qed.

Lemma length_take n s : String.length (take n s) = n `min` String.length s.
Proof.
  revert n. induction s as [|c s IH]; intros [|n]; simpl; try done.
  by rewrite IH.
Qed.

Lemma take_app n s : take (String.length n) (n +:+ s) = n.
Proof.
  induction n as [|c n IH]; [by destruct s|].
  rewrite StrFacts.app_cons. simpl. by rewrite IH.
Qed.

Lemma drop_last_app n suffix :
  drop_last (String.length suffix) (n +:+ suffix) = n.
Proof.
  unfold drop_last. rewrite StrFacts.length_app.
  replace (String.length n + String.length suffix - String.length suffix)
    with (String.length n) by lia.
  apply take_app.
Qed.

Lemma strip_git_app n : strip_git (n +:+ ".git") = n.
Proof.
  unfold strip_git. rewrite endswith_app. apply (drop_last_app n ".git").
Qed.

(** Splitting a string equation at the shorter prefix. *)
Lemma app_eq_split x y u v :
  x +:+ y = u +:+ v -> String.length x <= String.length u ->
  exists m, u = x +:+ m /\ y = m +:+ v.
Proof.
  revert u. induction x as [|c x IH]; intros u E Hlen.
  - exists u. by rewrite !StrFacts.app_nil_l in *.
  - destruct u as [|c' u]; [simpl in Hlen; lia|].
    rewrite !StrFacts.app_cons in E. injection E as -> E.
    simpl in Hlen. destruct (IH u E ltac:(lia)) as (m & -> & ->).
    by exists m.
Qed.

(** *** [split] *)

Lemma split_scan_skip k sep s :
  split_scan k sep s = split_scan 0 sep (drop k s).
Proof.
  revert k. induction s as [|c s IH]; intros [|k]; try done.
  simpl. apply IH.
Qed.

Lemma split_scan_nonempty k sep s : split_scan k sep s <> [].
Proof.
  revert k. induction s as [|c s IH]; intros k; [done|].
  simpl. destruct k; [|apply IH].
  destruct (startswith sep (String c s)); [done|].
  by destruct (split_scan 0 sep s).
Qed.

Lemma split_scan_absent sep s :
  contains sep s = false -> split_scan 0 sep s = [s].
Proof.
  induction s as [|c s IH]; [done|].
  rewrite StrFacts.contains_cons. intros [H1 H2]%orb_false_iff.
  simpl in *. rewrite H1. by rewrite IH.
Qed.

Lemma split_scan_match a o s :
  split_scan 0 (String a o) (String a o +:+ s)
  = "" :: split_scan 0 (String a o) s.
Proof.
  rewrite StrFacts.app_cons.
  change (split_scan 0 (String a o) (String a (o +:+ s)))
    with (if startswith (String a o) (String a (o +:+ s))
          then "" :: split_scan (String.length (String a o) - 1)
                       (String a o) (o +:+ s)
          else match split_scan 0 (String a o) (o +:+ s) with
               | piece :: pieces => String a piece :: pieces
               | [] => [String a ""]
               end).
  rewrite <- StrFacts.app_cons, StrFacts.startswith_app.
  rewrite split_scan_skip.
  replace (String.length (String a o) - 1) with (String.length o)
    by (simpl; lia).
  by rewrite StrFacts.drop_app.
Qed.

(** A piece free of the first character of the separator, then the
    separator: the piece is the first of the split. *)
Lemma split_scan_piece a o pre s :
  has_char a pre = false ->
  split_scan 0 (String a o) (pre +:+ String a o +:+ s)
  = pre :: split_scan 0 (String a o) s.
Proof.
  induction pre as [|c pre IH]; intros H.
  - rewrite StrFacts.app_nil_l. apply split_scan_match.
  - cbn [has_char] in H. destruct (decide (a = c)); [done|].
    rewrite (StrFacts.app_cons c pre).
    change (split_scan 0 (String a o) (String c (pre +:+ String a o +:+ s)))
      with (if startswith (String a o) (String c (pre +:+ String a o +:+ s))
            then "" :: split_scan (String.length (String a o) - 1)
                         (String a o) (pre +:+ String a o +:+ s)
            else match split_scan 0 (String a o) (pre +:+ String a o +:+ s) with
                 | piece :: pieces => String c piece :: pieces
                 | [] => [String c ""]
                 end).
    rewrite StrFacts.startswith_other by done. by rewrite IH.
Qed.

(** *** Removing a pattern *)

Lemma length_replace_scan_le k old s :
  String.length (replace_scan k old "" s) <= String.length s.
Proof.
  revert k. induction s as [|c s IH]; intros k; [done|].
  simpl. destruct k; [|specialize (IH k); lia].
  destruct (startswith old (String c s)).
  - rewrite StrFacts.app_nil_l.
    specialize (IH (String.length old - 1)). lia.
  - simpl. specialize (IH 0). lia.
Qed.

Lemma length_remove_lt a o s :
  contains (String a o) s = true ->
  String.length (replace (String a o) "" s) + String.length (String a o)
  <= String.length s.
Proof.
  intros (pre & post & -> & L)%StrFacts.leftmost_exists.
  rewrite StrFacts.replace_leftmost by done.
  rewrite !StrFacts.length_app. rewrite StrFacts.replace_nonempty.
  pose proof (length_replace_scan_le 0 (String a o) post).
  simpl in *. lia.
Qed.

(** The stem of a file name survives the removal of [".md"] when it has
    no [".md"] of its own. *)
Lemma leftmost_md n : contains ".md" n = false -> leftmost ".md" n "".
Proof.
  induction n as [|c n IH]; intros Hn pre' post' E; [simpl; lia|].
  rewrite StrFacts.contains_cons in Hn.
  apply orb_false_iff in Hn as [Hs Hn].
  destruct pre' as [|c' pre'].
  - exfalso. rewrite StrFacts.app_nil_l, StrFacts.app_cons in E.
    injection E as -> E.
    destruct n as [|c2 n]; [done|]. rewrite StrFacts.app_cons in E.
    injection E as -> E.
    destruct n as [|c3 n]; [done|]. rewrite StrFacts.app_cons in E.
    injection E as -> E. done.
  - rewrite !StrFacts.app_cons in E. injection E as -> E.
    specialize (IH Hn _ _ E). simpl. lia.
Qed.

Lemma remove_md_stem n :
  contains ".md" n = false -> replace ".md" "" (n +:+ ".md") = n.
Proof.
  intros H.
  change (n +:+ ".md") with (n +:+ ".md" +:+ "").
  rewrite StrFacts.replace_leftmost; [|done|by apply leftmost_md].
  by rewrite !StrFacts.app_nil_r.
Qed.

Lemma remove_md_mangles n :
  contains ".md" n = true ->
  String.length (replace ".md" "" (n +:+ ".md")) + 3 <= String.length n.
Proof.
  intros Hn.
  assert (contains ".md" (n +:+ ".md") = true) as Hs
    by by apply StrFacts.contains_app_l.
  apply StrFacts.leftmost_exists in Hs as (pre & post & E & L).
  apply StrFacts.contains_elim in Hn as (a & b & ->).
  assert (String.length pre <= String.length a) as Hpre.
  { apply (L a (b +:+ ".md")). rewrite <- E.
    by rewrite !StrFacts.app_assoc. }
  assert (exists m, post = m +:+ ".md") as [m ->].
  { rewrite <- (StrFacts.app_assoc pre ".md" post) in E.
    symmetry in E.
    apply app_eq_split in E as (m & _ & ->); [by exists m|].
    rewrite !StrFacts.length_app. simpl. lia. }
  rewrite E, StrFacts.replace_leftmost by done.
  pose proof (length_remove_lt "."%char "md" (m +:+ ".md")
                (StrFacts.contains_intro ".md" m "")) as Hm.
  apply (f_equal String.length) in E.
  rewrite !StrFacts.length_app in *. simpl in *. lia.
Qed.
End PyStrFacts.

(** ** Listing the examples *)

Lemma first_component_plain f :
  Str.has_char "/" f = false -> first_component f = f.
Proof.
  intros H. unfold first_component, PyStr.split.
  rewrite PyStrFacts.split_scan_absent; [done|].
  eapply StrFacts.has_char_contains; [|exact H]. done.
Qed.

Lemma entry_below_file d f :
  Str.has_char "/" f = false -> entry_below d (d +:+ "/" +:+ f) = Some f.
Proof.
  intros H. unfold entry_below.
  rewrite <- StrFacts.app_assoc, StrFacts.startswith_app.
  replace (String.length d + 1) with (String.length (d +:+ "/"))
    by (rewrite StrFacts.length_app; done).
  by rewrite StrFacts.drop_app, first_component_plain.
Qed.

Lemma os_listdir_pure d w r w' : os_listdir d w = (r, w') -> w' = w.
Proof. unfold os_listdir. case_match; by intros [= _ <-]. Qed.

Lemma os_listdir_lists d f text w :
  fs w !! (d +:+ "/" +:+ f) = Some text ->
  Str.has_char "/" f = false ->
  exists names, os_listdir d w = (Return names, w) /\ f ∈ names.
Proof.
  intros Hf Hs. unfold os_listdir.
  assert (f ∈ remove_dups
                (omap (entry_below d) (map fst (map_to_list (fs w))))) as Hin.
  { apply elem_of_remove_dups, list_elem_of_omap.
    exists (d +:+ "/" +:+ f). split; [|by apply entry_below_file].
    apply list_elem_of_fmap. exists (d +:+ "/" +:+ f, text).
    split; [done|]. by apply elem_of_map_to_list. }
  destruct (remove_dups _) as [|n names] eqn:E.
  - by apply elem_of_nil in Hin.
  - eauto.
Qed.

Lemma example_names_elem files f :
  f ∈ files -> PyStr.endswith ".md" f = true ->
  Str.replace ".md" "" f ∈ example_names files.
Proof.
  intros Hin Hmd. induction files as [|g files IH]; [by apply elem_of_nil in Hin|].
  apply elem_of_cons in Hin as [<-|Hin]; simpl.
  - rewrite Hmd. apply elem_of_cons. by left.
  - destruct (PyStr.endswith ".md" g); [apply elem_of_cons; right|]; by apply IH.
Qed.

Lemma example_names_origin files name :
  name ∈ example_names files ->
  exists f, f ∈ files /\ PyStr.endswith ".md" f = true /\
            name = Str.replace ".md" "" f.
Proof.
  induction files as [|g files IH]; simpl; [by intros ?%elem_of_nil|].
  destruct (PyStr.endswith ".md" g) eqn:E.
  - intros [->|H]%elem_of_cons.
    + exists g. split; [apply elem_of_cons; by left|done].
    + destruct (IH H) as (f & ? & ? & ?). exists f.
      split; [apply elem_of_cons; by right|done].
  - intros H. destruct (IH H) as (f & ? & ? & ?). exists f.
    split; [apply elem_of_cons; by right|done].
Qed.

Lemma example_file_offered cfg a n text w :
  let stem := String a n in
  let file := path_div (EXAMPLES_DIR cfg) (stem +:+ ".md") in
  Str.has_char "/" stem = false ->
  Str.contains ".md" stem = false ->
  fs w !! file = Some text ->
  (exists names,
      get_available_examples cfg w = (Return names, w) /\ stem ∈ names) /\
  example_path_of cfg (Some stem) w = (Return file, w).
Proof.
  intros stem file Hslash Hmd Hfile. subst stem file.
  assert (a <> "/"%char) as Ha.
  { intros ->. simpl in Hslash. done. }
  rewrite StrFacts.app_cons, path_div_relative in Hfile by done.
  split.
  - destruct (os_listdir_lists (EXAMPLES_DIR cfg) (String a (n +:+ ".md"))
                text w Hfile) as (names & Hl & Hin).
    { rewrite <- StrFacts.app_cons, StrFacts.has_char_app, Hslash. done. }
    exists (example_names names). unfold get_available_examples.
    rewrite (bind_Return _ _ _ _ _ Hl). split; [done|].
    rewrite <- (PyStrFacts.remove_md_stem (String a n)) by done.
    apply example_names_elem; [done|]. apply PyStrFacts.endswith_app.
  - unfold example_path_of, bind, path_exists.
    rewrite StrFacts.app_cons, path_div_relative by done.
    rewrite Hfile. by rewrite bool_decide_eq_true_2.
Qed.

(** X5. A file [stem.md] of the examples directory whose stem has no
    slash and no [".md"] of its own is offered by
    [get_available_examples] under its stem, and [create_list] given
    that name selects that very file. *)
Theorem offered_example_is_selectable cfg a n text w :
  let stem := String a n in
  let file := path_div (EXAMPLES_DIR cfg) (stem +:+ ".md") in
  Str.has_char "/" stem = false ->
  Str.contains ".md" stem = false ->
  fs w !! file = Some text ->
  (exists names,
      get_available_examples cfg w = (Return names, w) /\ stem ∈ names) /\
  example_path_of cfg (Some stem) w = (Return file, w).
Proof. apply example_file_offered. Qed.

Lemma offered_example_is_selectable_witness :
  (exists names,
      get_available_examples sample_cfg calm_world = (Return names, calm_world)
      /\ "awesome-android" ∈ names) /\
  example_path_of sample_cfg (Some "awesome-android") calm_world
  = (Return (DEFAULT_EXAMPLE_PATH sample_cfg), calm_world).
Proof.
  apply (offered_example_is_selectable sample_cfg "a"%char "wesome-android"
           "# Awesome Android" calm_world); reflexivity.
Defined.

(** X6. Every name [get_available_examples] offers comes from an entry
    of the examples directory that ends in [".md"], with every [".md"]
    removed from it, not only the last: an entry [stem.md] whose stem has
    a [".md"] of its own is offered under a name at least three
    characters shorter than its stem, so that the name offered does not
    name the file. *)
Theorem offered_names_lose_every_md cfg w names :
  get_available_examples cfg w = (Return names, w) ->
  forall name, name ∈ names ->
    exists files stem,
      os_listdir (EXAMPLES_DIR cfg) w = (Return files, w) /\
      stem +:+ ".md" ∈ files /\
      name = Str.replace ".md" "" (stem +:+ ".md") /\
      (Str.contains ".md" stem = false -> name = stem) /\
      (Str.contains ".md" stem = true ->
       String.length name + 3 <= String.length stem).
Proof.
  unfold get_available_examples. intros H name Hin.
  apply bind_inv in H as [(files & w1 & Hl & H)|(e & _ & ?)]; [|done].
  pose proof (os_listdir_pure _ _ _ _ Hl) as ->.
  unfold ret in H. simplify_eq.
  apply example_names_origin in Hin as (f & Hf & Hmd & ->).
  apply PyStrFacts.endswith_inv in Hmd as [stem ->].
  exists files, stem. split; [done|]. split; [done|]. split; [done|]. split.
  - apply PyStrFacts.remove_md_stem.
  - apply PyStrFacts.remove_md_mangles.
Qed.

Lemma offered_names_lose_every_md_witness :
  exists files stem,
    os_listdir (EXAMPLES_DIR sample_cfg) mangling_world
      = (Return files, mangling_world) /\
    stem +:+ ".md" ∈ files /\
    "notes" = Str.replace ".md" "" (stem +:+ ".md") /\
    (Str.contains ".md" stem = false -> "notes" = stem) /\
    (Str.contains ".md" stem = true ->
     String.length "notes" + 3 <= String.length stem).
Proof.
  apply (offered_names_lose_every_md sample_cfg mangling_world ["notes"]).
  - vm_compute. reflexivity.
  - apply elem_of_cons. by left.
Defined.

(** ** The commands *)

Lemma last_char_app x y z :
  Str.last_char y = Some z -> Str.last_char (x +:+ y) = Some z.
Proof.
  intros Hy. induction x as [|c x IH]; [done|].
  rewrite StrFacts.app_cons. simpl. rewrite IH.
  by destruct (x +:+ y).
Qed.

Lemma endswith_last_char suffix s z :
  Str.last_char suffix = Some z -> PyStr.endswith suffix s = true ->
  Str.last_char s = Some z.
Proof.
  intros Hz [n ->]%PyStrFacts.endswith_inv. by apply last_char_app.
Qed.

Lemma contains_here old s : Str.contains old (old +:+ s) = true.
Proof. apply StrFacts.startswith_contains, StrFacts.startswith_app. Qed.

(** X7. The user message the create command composes carries the name,
    the description and the style verbatim, and it ends with the request
    for community guidelines exactly when the option is set. *)
Theorem user_input_carries_parameters name description style community :
  let user_input := construct_user_input name description style community in
  Str.contains name user_input = true /\
  Str.contains description user_input = true /\
  Str.contains style user_input = true /\
  PyStr.endswith COMMUNITY_SENTENCE user_input = community.
Proof.
  unfold construct_user_input. cbv zeta.
  split; [|split; [|split]].
  - destruct community; [apply StrFacts.contains_app_l|];
      apply StrFacts.contains_app_r, contains_here.
  - destruct community; [apply StrFacts.contains_app_l|];
      do 3 apply StrFacts.contains_app_r; apply contains_here.
  - destruct community; [apply StrFacts.contains_app_l|];
      do 6 apply StrFacts.contains_app_r; apply contains_here.
  - destruct community; [apply PyStrFacts.endswith_app|].
    destruct (PyStr.endswith _ _) eqn:E; [|done].
    apply (endswith_last_char COMMUNITY_SENTENCE _ "."%char eq_refl) in E.
    rewrite (last_char_app _ _ " "%char) in E; [done|].
    do 6 apply last_char_app. done.
Qed.

Lemma init_pure cfg model_arg w r w' :
  __init__ cfg model_arg w = (r, w') -> w' = w.
Proof.
  unfold __init__. intros H.
  assert (forall r1 w1, _get_client cfg w = (r1, w1) -> w1 = w) as Hc.
  { unfold _get_client, ret, raise. intros r1 w1.
    repeat case_match; by intros [= _ <-]. }
  apply bind_inv in H as [(c & w1 & Hg & H)|(e & Hg & _)];
    apply Hc in Hg as ->; [|done].
  unfold bind, read_file_content, ret in H.
  repeat case_match; by simplify_eq.
Qed.






(** *** The result panel *)

Lemma preview_short T : String.length T <= 500 -> preview T = T.
Proof.
  intros H. unfold preview.
  destruct (500 <? String.length T) eqn:E; [|done].
  apply Nat.ltb_lt in E. lia.
Qed.

Lemma preview_long T :
  500 < String.length T ->
  preview T = Str.take 500 T +:+ "..." /\ String.length (preview T) = 503.
Proof.
  intros H. unfold preview.
  apply Nat.ltb_lt in H as E. rewrite E. split; [done|].
  rewrite StrFacts.length_app, PyStrFacts.length_take.
  change (String.length "...") with 3. lia.
Qed.

Lemma preview_length T : String.length (preview T) <= 503.
Proof.
  destruct (decide (String.length T <= 500)) as [H|H].
  - rewrite preview_short by done. lia.
  - destruct (preview_long T) as [_ ->]; lia.
Qed.

(** X9. How the create command ends. When it completes, the agent was
    built and [create_list] returned a text [T]: the starter and the
    main list file hold all of [T], while the panel shows [T] itself if
    it has at most 500 characters and its first 500 followed by three
    dots otherwise, never more than 503 characters. When it leaves after
    the key panel, or lets an exception escape, nothing was done. *)
Theorem create_command_outcome cfg name description example model api_key
    openrouter_key style community environ w o w' :
  cli_create cfg name description example model api_key openrouter_key
    style community environ w = (Return o, w') ->
  match o with
  | Shown text =>
      exists agent T,
        __init__ cfg model w = (Return agent, w) /\
        create_list cfg agent
          (construct_user_input name description style community) example w
        = (Return (Some T), w') /\
        fs w' !! LIST_STARTER cfg = Some T /\
        fs w' !! LIST_PATH cfg = Some T /\
        text = preview T /\
        String.length text <= 503 /\
        (String.length T <= 500 -> text = T)
  | Exit code None => code = 1 /\ w' = w
  | Exit code (Some e) =>
      code = 1 /\ exists agent, __init__ cfg model w = (Return agent, w)
  | Uncaught e => __init__ cfg model w = (Raise e, w) /\ w' = w
  end.
Proof.
  unfold cli_create, command.
  destruct (keys_set _); simpl; [|by intros [= <- <-]].
  destruct (__init__ cfg model w) as [[agent|e] w1] eqn:Hi;
    pose proof (init_pure _ _ _ _ _ Hi) as ->; [|by intros [= <- <-]].
  destruct (create_list _ _ _ _ _) as [[[T|]|e] w2] eqn:Hc;
    intros [= <- <-]; [|eauto..].
  exists agent, T.
  pose proof (create_list_returns _ _ _ _ _ _ _ Hc)
    as [(T' & ? & ? & [= <-] & _ & _ & Hs & Hl) _].
  repeat split; try done.
  - apply preview_length.
  - apply preview_short.
Qed.

Lemma create_command_outcome_witness :
  exists agent T,
    __init__ sample_cfg None calm_world = (Return agent, calm_world) /\
    create_list sample_cfg agent
      (construct_user_input "Awesome Rocq" "proof assistants" "visual" true)
      None calm_world
    = (Return (Some T),
       snd (cli_create sample_cfg "Awesome Rocq" "proof assistants" None
              None None None "visual" true {["OPENAI_API_KEY" := "sk-sample"]}
              calm_world)) /\
    fs (snd (cli_create sample_cfg "Awesome Rocq" "proof assistants" None
               None None None "visual" true {["OPENAI_API_KEY" := "sk-sample"]}
               calm_world)) !! LIST_STARTER sample_cfg = Some T /\
    fs (snd (cli_create sample_cfg "Awesome Rocq" "proof assistants" None
               None None None "visual" true {["OPENAI_API_KEY" := "sk-sample"]}
               calm_world)) !! LIST_PATH sample_cfg = Some T /\
    "# Awesome Things" = preview T /\
    String.length "# Awesome Things" <= 503 /\
    (String.length T <= 500 -> "# Awesome Things" = T).
Proof.
  apply (create_command_outcome sample_cfg "Awesome Rocq" "proof assistants"
           None None None None "visual" true
           {["OPENAI_API_KEY" := "sk-sample"]} calm_world
           (Shown "# Awesome Things")).
  vm_compute. reflexivity.
Defined.

(** ** The downloader: GitHub addresses *)

Lemma has_char_take c n s :
  Str.has_char c s = false -> Str.has_char c (Str.take n s) = false.
Proof.
  revert n. induction s as [|b s IH]; intros [|n]; simpl; try done.
  destruct (decide (c = b)); [done|]. apply IH.
Qed.

Lemma has_char_strip_git c s :
  Str.has_char c s = false -> Str.has_char c (PyStr.strip_git s) = false.
Proof.
  intros H. unfold PyStr.strip_git, PyStr.drop_last.
  destruct (PyStr.endswith ".git" s); [by apply has_char_take|done].
Qed.

Lemma split_plain c s :
  Str.has_char c s = false -> PyStr.split (String c "") s = [s].
Proof.
  intros H. apply PyStrFacts.split_scan_absent.
  eapply StrFacts.has_char_contains; [|exact H].
  simpl. by rewrite decide_True.
Qed.

Lemma split_slash_piece pre s :
  Str.has_char "/" pre = false ->
  PyStr.split "/" (pre +:+ "/" +:+ s) = pre :: PyStr.split "/" s.
Proof. apply (PyStrFacts.split_scan_piece "/" ""). Qed.

Section ParseFacts.
Context (urlparse : string -> string * string).

(** X10. An SSH address [git@github.com:owner/repo.git] parses to its
    owner and repository, for every owner and repository without a slash
    or a colon; without a slash after the owner, [parts[1]] raises
    [IndexError]. *)
Theorem parse_ssh_url owner repo :
  Str.has_char "/" owner = false -> Str.has_char ":" owner = false ->
  (Str.has_char "/" repo = false -> Str.has_char ":" repo = false ->
   parse_github_url urlparse
     (SSH_PREFIX +:+ owner +:+ "/" +:+ repo +:+ ".git")
   = Return (owner, repo)) /\
  parse_github_url urlparse (SSH_PREFIX +:+ owner)
  = Raise (IndexError "list index out of range").
Proof.
  intros Ho1 Ho2. split.
  - intros Hr1 Hr2. unfold parse_github_url.
    rewrite StrFacts.startswith_app.
    unfold PyStr.split at 1. unfold SSH_PREFIX at 1 2.
    rewrite PyStrFacts.split_scan_match.
    rewrite PyStrFacts.split_scan_absent.
    + rewrite <- !StrFacts.app_assoc, PyStrFacts.strip_git_app.
      rewrite StrFacts.app_assoc, split_slash_piece by done.
      by rewrite (split_plain "/") by done.
    + eapply (StrFacts.has_char_contains ":"); [done|].
      rewrite !StrFacts.has_char_app, Ho2, Hr2. done.
  - unfold parse_github_url.
    rewrite StrFacts.startswith_app.
    unfold PyStr.split at 1. unfold SSH_PREFIX at 1 2.
    rewrite PyStrFacts.split_scan_match.
    rewrite PyStrFacts.split_scan_absent.
    + rewrite (split_plain "/"); [done|]. by apply has_char_strip_git.
    + by eapply (StrFacts.has_char_contains ":").
Qed.

End ParseFacts.

Lemma parse_ssh_url_witness :
  parse_github_url sample_urlparse "git@github.com:sindresorhus/awesome.git"
  = Return ("sindresorhus", "awesome").
Proof.
  apply (proj1 (parse_ssh_url sample_urlparse "sindresorhus" "awesome" eq_refl eq_refl));
    reflexivity.
Defined.

Section ParseHttps.
Context (urlparse : string -> string * string).

(** X11. An address that is not the SSH form is judged by what
    [urlparse] makes of it. A host other than [github.com] and not
    ending in [.github.com] is refused with [ValueError]. For an accepted
    host, a path [/owner/repo], followed by nothing or by a slash and
    anything, gives the owner and the repository with one [.git] taken
    off its end; a path with the owner alone is refused. *)
Theorem parse_https_url url netloc path :
  Str.startswith SSH_PREFIX url = false ->
  urlparse url = (netloc, path) ->
  (netloc <> "github.com" -> PyStr.endswith ".github.com" netloc = false ->
   parse_github_url urlparse url
   = Raise (ValueError ("Not a GitHub URL: " +:+ url))) /\
  (netloc = "github.com" \/ PyStr.endswith ".github.com" netloc = true ->
   forall a owner,
     Str.has_char "/" (String a owner) = false ->
     (forall b repo tail,
         Str.has_char "/" (String b repo) = false ->
         tail = "" \/ Str.startswith "/" tail = true ->
         path = "/" +:+ String a owner +:+ "/" +:+ String b repo +:+ tail ->
         parse_github_url urlparse url
         = Return (String a owner, PyStr.strip_git (String b repo))) /\
     (path = "/" +:+ String a owner ->
      parse_github_url urlparse url
      = Raise (ValueError ("Invalid GitHub repository URL: " +:+ url)))).
Proof.
  intros Hssh Hurl. unfold parse_github_url. rewrite Hssh, Hurl.
  split.
  - intros H1 H2. by rewrite bool_decide_eq_false_2, H2.
  - intros Hhost a owner Ho.
    assert (negb (bool_decide (netloc = "github.com"))
            && negb (PyStr.endswith ".github.com" netloc) = false) as ->.
    { destruct Hhost as [->| ->]; [done|apply andb_false_r]. }
    split.
    + intros b repo tail Hr Htail ->.
      change ("/" +:+ String a owner +:+ "/" +:+ String b repo +:+ tail)
        with ("" +:+ "/" +:+ String a owner +:+ "/" +:+ String b repo +:+ tail).
      rewrite split_slash_piece by done.
      rewrite split_slash_piece by done.
      destruct Htail as [->|[t ->]%StrFacts.startswith_inv].
      * rewrite StrFacts.app_nil_r, (split_plain "/") by done.
        rewrite filter_cons_False by naive_solver.
        rewrite !filter_cons_True by done. done.
      * rewrite split_slash_piece by done.
        rewrite filter_cons_False by naive_solver.
        rewrite !filter_cons_True by done. done.
    + intros ->.
      change ("/" +:+ String a owner)
        with ("" +:+ "/" +:+ String a owner).
      rewrite split_slash_piece by done.
      rewrite (split_plain "/") by done.
      rewrite filter_cons_False by naive_solver.
      rewrite filter_cons_True by done. done.
Qed.
End ParseHttps.

Lemma parse_https_url_witness :
  parse_github_url sample_urlparse
    "https://github.com/sindresorhus/awesome/blob/main/readme.md"
  = Return ("sindresorhus", "awesome").
Proof.
  destruct (parse_https_url sample_urlparse
              "https://github.com/sindresorhus/awesome/blob/main/readme.md"
              "github.com" "/sindresorhus/awesome/blob/main/readme.md"
              eq_refl eq_refl) as [_ H].
  destruct (H (or_introl eq_refl) "s"%char "indresorhus" eq_refl) as [H' _].
  exact (H' "a"%char "wesome" "/blob/main/readme.md" eq_refl
           (or_intror eq_refl) eq_refl).
Defined.

(** ** The downloader: fetching the README *)

Section FetchFacts.
Context (server : list string -> string -> HttpAnswer).

(** X12. [get_readme_content] asks for the four addresses in their
    order, stops at the first answer with status 200 and returns its
    text: it makes between one and four requests, every request before
    the last was answered with another status, and the last was answered
    with 200 and the text returned, or with an exception of the library,
    which is passed on, or was the fourth and not a 200 either, which
    gives the [ValueError]. *)
Theorem readme_first_200_wins owner repo l r l' :
  get_readme_content server owner repo l = (r, l') ->
  exists k u,
    readme_urls owner repo !! k = Some u /\
    l' = l ++ take (S k) (readme_urls owner repo) /\
    (forall i v, i < k -> readme_urls owner repo !! i = Some v ->
       exists c t, server (l ++ take i (readme_urls owner repo)) v
                   = HttpResponse c t /\ c <> 200) /\
    match server (l ++ take k (readme_urls owner repo)) u with
    | HttpResponse c t =>
        if decide (c = 200) then r = Return t
        else k = 3 /\
             r = Raise (ValueError ("Could not find README for "
                                      +:+ owner +:+ "/" +:+ repo))
    | HttpError msg => r = Raise (OSError msg)
    end.
Proof.
  unfold get_readme_content, fetch_bind, retry_unless_200, requests_get,
    fetch_ret, fetch_raise, readme_urls.
  set (u1 := readme_url owner repo "main" "README.md").
  set (u2 := readme_url owner repo "master" "README.md").
  set (u3 := readme_url owner repo "main" "readme.md").
  set (u4 := readme_url owner repo "master" "readme.md").
  assert (forall c : nat, c <> 200 -> bool_decide (c <> 200) = true) as Hne
    by (intros; by apply bool_decide_eq_true_2).
  assert (bool_decide (200 <> 200) = false) as Heq by done.
  destruct (server l u1) as [c1 t1|m1] eqn:E1;
    [destruct (decide (c1 = 200)) as [->|N1]|]; simpl fst; simpl snd;
    rewrite ?Heq, ?Hne by done.
  1, 3: intros [= <- <-]; exists 0, u1; simpl; rewrite app_nil_r, E1;
    (split; [done|split; [done|split; [intros; lia|done]]]).
  destruct (server (l ++ [u1]) u2) as [c2 t2|m2] eqn:E2;
    [destruct (decide (c2 = 200)) as [->|N2]|]; simpl fst; simpl snd;
    rewrite ?Heq, ?Hne by done.
  1, 3: intros [= <- <-]; exists 1, u2; simpl; rewrite E2;
    (split; [done|split; [by rewrite <- app_assoc|split; [|done]]]);
    intros i v Hi Hv;
    repeat (destruct i as [|i];
            [simpl in Hv; injection Hv as <-; simpl; rewrite ?app_nil_r;
             eauto|]);
    lia.
  destruct (server ((l ++ [u1]) ++ [u2]) u3) as [c3 t3|m3] eqn:E3;
    [destruct (decide (c3 = 200)) as [->|N3]|]; simpl fst; simpl snd;
    rewrite ?Heq, ?Hne by done.
  1, 3: intros [= <- <-]; exists 2, u3; simpl;
    rewrite <- !app_assoc in *; simpl in *; rewrite E3;
    (split; [done|split; [done|split; [|done]]]);
    intros i v Hi Hv;
    repeat (destruct i as [|i];
            [simpl in Hv; injection Hv as <-; simpl; rewrite ?app_nil_r;
             eauto|]);
    lia.
  destruct (server (((l ++ [u1]) ++ [u2]) ++ [u3]) u4) as [c4 t4|m4] eqn:E4;
    [destruct (decide (c4 = 200)) as [->|N4]|]; simpl fst; simpl snd;
    rewrite ?Heq, ?Hne by done.
  all: intros [= <- <-]; exists 3, u4; simpl;
    rewrite <- !app_assoc in *; simpl in *; rewrite E4;
    rewrite ?decide_False by done;
    (split; [done|split; [done|split; [|done]]]);
    intros i v Hi Hv;
    repeat (destruct i as [|i];
            [simpl in Hv; injection Hv as <-; simpl; rewrite ?app_nil_r;
             eauto|]);
    lia.
Qed.
End FetchFacts.

Lemma readme_first_200_wins_witness :
  exists k u,
    readme_urls "sindresorhus" "awesome" !! k = Some u /\
    take 3 (readme_urls "sindresorhus" "awesome")
    = [] ++ take (S k) (readme_urls "sindresorhus" "awesome") /\
    (forall i v, i < k -> readme_urls "sindresorhus" "awesome" !! i = Some v ->
       exists c t,
         sample_server ([] ++ take i (readme_urls "sindresorhus" "awesome")) v
         = HttpResponse c t /\ c <> 200) /\
    match sample_server
            ([] ++ take k (readme_urls "sindresorhus" "awesome")) u with
    | HttpResponse c t =>
        if decide (c = 200) then Return "# Awesome" = Return t
        else k = 3 /\
             Return "# Awesome"
             = Raise (ValueError ("Could not find README for "
                                    +:+ "sindresorhus" +:+ "/" +:+ "awesome"))
    | HttpError msg => Return "# Awesome" = Raise (OSError msg)
    end.
Proof.
  apply (readme_first_200_wins sample_server "sindresorhus" "awesome" []).
  vm_compute. reflexivity.
Defined.

(** ** The downloader: from the address to the file *)

Lemma split_slash_pieces s p :
  p ∈ PyStr.split "/" s -> Str.has_char "/" p = false.
Proof.
  unfold PyStr.split. revert p. induction s as [|c s IH]; intros p.
  - simpl. by intros ->%list_elem_of_singleton.
  - cbn [PyStr.split_scan]. cbn [Str.startswith].
    destruct (decide ("/"%char = c)) as [<-|N].
    + simpl. intros [->|H]%elem_of_cons; [done|by apply IH].
    + destruct (PyStr.split_scan 0 "/" s) as [|piece pieces] eqn:E.
      * intros ->%list_elem_of_singleton. simpl. by rewrite decide_False.
      * intros [->|H]%elem_of_cons.
        -- simpl. rewrite decide_False by done. apply IH.
           apply elem_of_cons. by left.
        -- apply IH. apply elem_of_cons. by right.
Qed.

Section ProcessFacts.
Context (urlparse : string -> string * string).
Context (server : list string -> string -> HttpAnswer).

(** The repository name [parse_github_url] returns has no slash. *)
Lemma parsed_repo_plain url owner repo :
  parse_github_url urlparse url = Return (owner, repo) ->
  Str.has_char "/" repo = false.
Proof.
  unfold parse_github_url.
  destruct (Str.startswith SSH_PREFIX url).
  - destruct (PyStr.split SSH_PREFIX url) as [|? [|path ?]]; try done.
    destruct (PyStr.split "/" (PyStr.strip_git path))
      as [|o [|r rest]] eqn:E; try done.
    intros [= <- <-]. apply (split_slash_pieces (PyStr.strip_git path)).
    rewrite E. apply elem_of_cons. right. apply elem_of_cons. by left.
  - destruct (urlparse url) as [netloc path].
    destruct (_ && _); [done|].
    destruct (filter _ _) as [|o [|r rest]] eqn:E; try done.
    intros [= <- <-]. apply has_char_strip_git.
    apply (split_slash_pieces path).
    assert (r ∈ filter (λ p : string, p ≠ "") (PyStr.split "/" path)) as Hin.
    { rewrite E. apply elem_of_cons. right. apply elem_of_cons. by left. }
    by apply list_elem_of_filter in Hin as [_ ?].
Qed.

Lemma save_readme_frame content repo_name output_dir w r w' :
  save_readme content repo_name output_dir w = (r, w') ->
  forall q, q <> os_path_join output_dir (repo_name +:+ ".md") ->
            fs w' !! q = fs w !! q.
Proof.
  unfold save_readme, next_fault.
  destruct output_dir; [by intros [= _ <-]|].
  destruct (faults w) as [|[] ?]; simpl; intros [= _ <-] q Hq; simpl;
    by rewrite ?lookup_insert_ne.
Qed.

Lemma save_readme_returns content repo_name output_dir w f w' :
  save_readme content repo_name output_dir w = (Return f, w') ->
  f = os_path_join output_dir (repo_name +:+ ".md") /\
  fs w' = <[f := content]> (fs w).
Proof.
  unfold save_readme, next_fault. destruct output_dir; [done|].
  destruct (faults w) as [|[] ?]; simpl; intros H; by simplify_eq.
Qed.

(** A save that raises has written nothing, or has left in the target
    the part of the text that got written. *)
Lemma save_readme_raises content repo_name output_dir w e w' :
  save_readme content repo_name output_dir w = (Raise e, w') ->
  fs w' = fs w \/
  exists n,
    fs w' = <[os_path_join output_dir (repo_name +:+ ".md")
              := Str.take n content]> (fs w).
Proof.
  unfold save_readme, next_fault. destruct output_dir; [by intros [= _ <-]; left|].
  destruct (faults w) as [|[] ?]; simpl; intros [= _ <-]; simpl; eauto.
Qed.

(** X13. What processing an address does, by the step that ends it.
    An address that does not parse costs no request and no write. A
    README that cannot be fetched, the address having parsed, costs no
    write. A save that raises, the README having been fetched, leaves
    the files as they were or the target holding a part of the text.
    When the address is processed the target [output_dir/repo.md] holds
    exactly the text of the answer with status 200 and every other file
    is as it was. *)
Theorem process_outcome url output_dir l w p l' w' :
  process_github_url urlparse server url output_dir l w = (p, (l', w')) ->
  match p with
  | Saved f =>
      exists owner repo content,
        parse_github_url urlparse url = Return (owner, repo) /\
        get_readme_content server owner repo l = (Return content, l') /\
        f = os_path_join output_dir (repo +:+ ".md") /\
        fs w' = <[f := content]> (fs w)
  | Failed e =>
      (parse_github_url urlparse url = Raise e /\ l' = l /\ w' = w) \/
      (exists owner repo,
          parse_github_url urlparse url = Return (owner, repo) /\
          get_readme_content server owner repo l = (Raise e, l') /\
          w' = w) \/
      (exists owner repo content,
          parse_github_url urlparse url = Return (owner, repo) /\
          get_readme_content server owner repo l = (Return content, l') /\
          save_readme content repo output_dir w = (Raise e, w') /\
          (fs w' = fs w \/
           exists n,
             fs w' = <[os_path_join output_dir (repo +:+ ".md")
                       := Str.take n content]> (fs w)))
  end.
Proof.
  unfold process_github_url.
  destruct (parse_github_url urlparse url) as [[owner repo]|e] eqn:Hp;
    [|intros [= <- <- <-]; by left].
  destruct (get_readme_content server owner repo l) as [[content|e] l1] eqn:Hg;
    [|intros [= <- <- <-]; right; left; by exists owner, repo].
  destruct (save_readme content repo output_dir w) as [[f|e] w1] eqn:Hs;
    intros [= <- <- <-].
  - exists owner, repo, content.
    apply save_readme_returns in Hs as [? ?]. done.
  - right. right. exists owner, repo, content.
    repeat split; try done. by eapply save_readme_raises.
Qed.
End ProcessFacts.

Lemma os_path_join_examples cfg b repo :
  b <> "/"%char ->
  os_path_join (EXAMPLES_DIR cfg) (String b repo)
  = path_div (EXAMPLES_DIR cfg) (String b repo).
Proof.
  intros Hb. rewrite path_div_relative by done. unfold os_path_join.
  rewrite StrFacts.startswith_other by (by apply not_eq_sym).
  unfold EXAMPLES_DIR. rewrite path_div_relative by done.
  rewrite bool_decide_eq_false_2.
  - destruct (PyStr.endswith "/" _) eqn:E; [|done].
    apply (endswith_last_char "/" _ "/"%char eq_refl) in E.
    rewrite (last_char_app _ _ "s"%char) in E by done. done.
  - intros H%(f_equal String.length).
    rewrite StrFacts.length_app in H. simpl in H. lia.
Qed.

Section Populate.
Context (urlparse : string -> string * string).
Context (server : list string -> string -> HttpAnswer).

(** X14. A README downloaded into the examples directory becomes an
    example: when the address is processed and the name of the
    repository is not empty and has no [".md"] in it, the file saved is
    [repo.md] of the examples directory, [get_available_examples] offers
    [repo], and [create_list] given [repo] selects the file saved. *)
Theorem downloaded_readme_is_offered cfg url l w f l' w' owner b repo :
  process_github_url urlparse server url (EXAMPLES_DIR cfg) l w
    = (Saved f, (l', w')) ->
  parse_github_url urlparse url = Return (owner, String b repo) ->
  Str.contains ".md" (String b repo) = false ->
  f = path_div (EXAMPLES_DIR cfg) (String b repo +:+ ".md") /\
  (exists names,
      get_available_examples cfg w' = (Return names, w') /\
      String b repo ∈ names) /\
  example_path_of cfg (Some (String b repo)) w' = (Return f, w').
Proof.
  intros H Hp Hmd.
  pose proof (parsed_repo_plain _ _ _ _ Hp) as Hplain.
  unfold process_github_url in H. rewrite Hp in H.
  destruct (get_readme_content _ _ _ _) as [[content|e] l1]; [|done].
  destruct (save_readme _ _ _ _) as [[f1|e] w1] eqn:Hs; [|done].
  injection H as <- <- <-.
  apply save_readme_returns in Hs as [-> Hfs].
  assert (b <> "/"%char) as Hb.
  { intros ->. simpl in Hplain. done. }
  rewrite StrFacts.app_cons, os_path_join_examples in * by done.
  rewrite <- StrFacts.app_cons in *.
  split; [done|].
  apply (example_file_offered cfg b repo content); try done.
  rewrite Hfs. apply lookup_insert_eq.
Qed.
End Populate.

(** ** Instances *)

Lemma edit_reads_there_writes_here_witness :
  let w' := snd (edit_list sample_cfg sample_agent "Add a section"
                   (Some "/repo/notes/list.md") None elsewhere_world) in
  (exists text,
      fs elsewhere_world !! "/repo/notes/list.md" = Some text /\
      requests (log w')
      = requests (log elsewhere_world)
        ++ [edit_request sample_cfg sample_agent "Add a section"
              (Str.universal_newlines text)]) /\
  opened (log w')
  = opened (log elsewhere_world)
    ++ [LIST_DRAFT sample_cfg; LIST_PATH sample_cfg] /\
  fs w' !! LIST_DRAFT sample_cfg = Some "# Awesome Things" /\
  fs w' !! LIST_PATH sample_cfg = Some "# Awesome Things".
Proof.
  apply (edit_reads_there_writes_here sample_cfg sample_agent "Add a section"
           "/"%char "repo/notes/list.md" None elsewhere_world
           (Some "# Awesome Things")).
  vm_compute. reflexivity.
Defined.

Lemma bare_draft_path_fails_late_witness :
  edit_list sample_cfg sample_agent "Add a section" None (Some "draft.md")
    calm_world
  = (Raise (FileNotFoundError ""),
     emit (Called (edit_request sample_cfg sample_agent "Add a section"
                     (Str.universal_newlines "# My List"))) calm_world).
Proof.
  apply (bare_draft_path_fails_late sample_cfg sample_agent "Add a section"
           None "d"%char "raft.md" calm_world "# My List"
           (Some "# Awesome Things") []); reflexivity.
Defined.


Lemma process_outcome_witness :
  exists owner repo content,
    parse_github_url sample_urlparse sample_url = Return (owner, repo) /\
    get_readme_content sample_server owner repo []
      = (Return content, fst (snd sample_processed)) /\
    "/repo/development/examples/awesome.md"
      = os_path_join (EXAMPLES_DIR sample_cfg) (repo +:+ ".md") /\
    fs (snd (snd sample_processed))
      = <["/repo/development/examples/awesome.md" := content]> (fs calm_world).
Proof.
  apply (process_outcome sample_urlparse sample_server sample_url
           (EXAMPLES_DIR sample_cfg) [] calm_world
           (Saved "/repo/development/examples/awesome.md")).
  vm_compute. reflexivity.
Defined.

Lemma downloaded_readme_is_offered_witness :
  "/repo/development/examples/awesome.md"
    = path_div (EXAMPLES_DIR sample_cfg) ("awesome" +:+ ".md") /\
  (exists names,
      get_available_examples sample_cfg (snd (snd sample_processed))
        = (Return names, snd (snd sample_processed)) /\
      "awesome" ∈ names) /\
  example_path_of sample_cfg (Some "awesome") (snd (snd sample_processed))
    = (Return "/repo/development/examples/awesome.md",
       snd (snd sample_processed)).
Proof.
  apply (downloaded_readme_is_offered sample_urlparse sample_server sample_cfg
           sample_url [] calm_world "/repo/development/examples/awesome.md"
           (fst (snd sample_processed)) (snd (snd sample_processed))
           "sindresorhus" "a"%char "wesome").
  - vm_compute. reflexivity.
  - reflexivity.
  - reflexivity.
Defined.
